(** * iDrive: error classification and HTTP response middleware

    A shallow embedding of two TypeScript units of the desktop client:

    - [src/infra/drive-server-wip/in/exception-wrapper.ts]
      ([exceptionWrapper], [parseException], [isJsonParseException]);
    - [src/apps/shared/HttpClient/client.ts]
      ([getHeaders], [getWorkspaceHeader], [handleOnUserUnauthorized],
      [middleware.onRequest], [middleware.onResponse]).

    JavaScript values are an inductive type, objects are association lists
    in property order, and the effects of the code (logger calls, event
    emission, issue notifications) are recorded in order in a trace that a
    small state-and-exception monad threads through the calls. *)

From Stdlib Require Import String Ascii List ZArith Bool Lia.
From Stdlib Require Import DecimalString.
Import ListNotations.

Set Warnings "-register-all".

Local Open Scope string_scope.
Local Open Scope list_scope.

(** ** JavaScript values *)

Module Js.

(** The constructors of the error objects that reach the classifier.
    [DOMException] is what an [AbortController] raises; it inherits from
    [Error.prototype] like the others. *)
Inductive ErrorCtor : Type :=
| Error
| SyntaxError
| TypeError
| RangeError
| DOMException.

(** A value of type [unknown].  Numbers are restricted to integers (the
    code only handles a retry counter and status codes); an error object
    carries its constructor, its [name] and [message] strings and its
    other own properties (such as [cause]). *)
Inductive Value : Type :=
| Undefined
| Null
| Boolean (b : bool)
| Number (n : Z)
| Str (s : string)
| Obj (props : list (string * Value))
| ErrorObj (ctor : ErrorCtor) (name message : string)
           (props : list (string * Value)).

Definition Object := list (string * Value).

(** [o[k]] on an own property. *)
Fixpoint obj_get (k : string) (o : Object) : option Value :=
  match o with
  | [] => None
  | (k', v) :: o' => if String.eqb k k' then Some v else obj_get k o'
  end.

(** [o[k] = v]: an existing property keeps its position, a new one is
    added last. *)
Fixpoint obj_set (k : string) (v : Value) (o : Object) : Object :=
  match o with
  | [] => [(k, v)]
  | (k', v') :: o' =>
      if String.eqb k k' then (k, v) :: o' else (k', v') :: obj_set k v o'
  end.

(** [exc instanceof SyntaxError] *)
Definition instanceof_SyntaxError (v : Value) : bool :=
  match v with
  | ErrorObj SyntaxError _ _ _ => true
  | _ => false
  end.

(** [exc instanceof Error] *)
Definition instanceof_Error (v : Value) : bool :=
  match v with
  | ErrorObj _ _ _ _ => true
  | _ => false
  end.

(** [exc.message] of an error object. *)
Definition message_of (v : Value) : string :=
  match v with
  | ErrorObj _ _ m _ => m
  | _ => EmptyString
  end.

(** [String.prototype.includes]: [sub] occurs in [s] at some position. *)
Fixpoint includes (s sub : string) : bool :=
  String.prefix sub s
  || match s with
     | EmptyString => false
     | String _ s' => includes s' sub
     end.

(** [s.substring(0, n)] *)
Definition substring0 (n : nat) (s : string) : string :=
  String.substring 0 n s.

(** [String(v)] *)
Definition toString (v : Value) : string :=
  match v with
  | Undefined => "undefined"
  | Null => "null"
  | Boolean true => "true"
  | Boolean false => "false"
  | Number n => NilZero.string_of_int (Z.to_int n)
  | Str s => s
  | Obj _ => "[object Object]"
  | ErrorObj _ name message _ =>
      if String.eqb name EmptyString then message
      else if String.eqb message EmptyString then name
      else name ++ ": " ++ message
  end.

(** ASCII lower-casing, as header names are compared. *)
Definition lower_ascii (c : ascii) : ascii :=
  let n := nat_of_ascii c in
  if (65 <=? n)%nat && (n <=? 90)%nat then ascii_of_nat (n + 32) else c.

Fixpoint toLowerCase (s : string) : string :=
  match s with
  | EmptyString => EmptyString
  | String c s' => String (lower_ascii c) (toLowerCase s')
  end.

End Js.

(** ** Effects

    Every externally visible action of the two units is one entry of a
    trace, in the order the actions happen. *)

Module Effects.

(** [process.type] of the Electron process running the code. *)
Inductive ProcessType : Type :=
| Browser
| Renderer
| Worker
| Utility.

Inductive Effect : Type :=
| LoggerError (body : Js.Object)
    (* logger.error(body) *)
| EventBusEmit (event : string)
    (* eventBus.emit(event) *)
| IpcEmit (event : string)
    (* ipcRendererSyncEngine.emit(event) *)
| IpcSend (channel : string) (payload : Js.Value)
    (* ipcRendererSyncEngine.send(channel, payload) *)
| AddGeneralIssue (issue : Js.Value).
    (* addGeneralIssue(issue) *)

Record World : Type := mkWorld {
  processType : ProcessType;
  trace : list Effect
}.

(** How a call ends: with a value, or with a thrown value. *)
Inductive Completion (A : Type) : Type :=
| Normal (a : A)
| Throw (e : Js.Value).

Arguments Normal {A} a.
Arguments Throw {A} e.

Definition M (A : Type) : Type := World -> Completion A * World.

Definition ret {A} (a : A) : M A := fun w => (Normal a, w).

Definition bind {A B} (m : M A) (k : A -> M B) : M B :=
  fun w =>
    match m w with
    | (Normal a, w') => k a w'
    | (Throw e, w') => (Throw e, w')
    end.

Definition throw {A} (e : Js.Value) : M A := fun w => (Throw e, w).

(** [try { body } catch (error) { handler }] *)
Definition try_catch {A} (body : M A) (handler : Js.Value -> M A) : M A :=
  fun w =>
    match body w with
    | (Normal a, w') => (Normal a, w')
    | (Throw e, w') => handler e w'
    end.

Definition perform (e : Effect) : M unit :=
  fun w => (Normal tt, mkWorld (processType w) (trace w ++ [e])).

Definition process_type : M ProcessType :=
  fun w => (Normal (processType w), w).

Declare Scope js_scope.
Delimit Scope js_scope with js.

Notation "x <- m ;; k" := (bind m (fun x => k))
  (at level 61, m at next level, right associativity) : js_scope.
Notation "m ;; k" := (bind m (fun _ => k))
  (at level 61, right associativity) : js_scope.

(** The bodies handed to [logger.error], oldest first. *)
Fixpoint loggerCalls (t : list Effect) : list Js.Object :=
  match t with
  | [] => []
  | LoggerError body :: t' => body :: loggerCalls t'
  | _ :: t' => loggerCalls t'
  end.

(** The connectivity-issue notifications, whichever channel carried them. *)
Fixpoint issueNotifications (t : list Effect) : list Js.Value :=
  match t with
  | [] => []
  | IpcSend channel payload :: t' =>
      if String.eqb channel "ADD_GENERAL_ISSUE"
      then payload :: issueNotifications t'
      else issueNotifications t'
  | AddGeneralIssue issue :: t' => issue :: issueNotifications t'
  | _ :: t' => issueNotifications t'
  end.

(** [logger.error(body)] hands [body] to the structured log sink and
    returns what the sink makes of it.  The logger module is an external
    collaborator: [logged] stands for the value it returns. *)
Class Logger : Type := {
  logged : Js.Object -> Js.Value
}.

Definition logger_error `{Logger} (body : Js.Object) : M Js.Value :=
  fun w => (Normal (logged body), mkWorld (processType w) (trace w ++ [LoggerError body])).

End Effects.

(** ** The error classifier: [exception-wrapper.ts] *)

Module ExceptionWrapper.
Import Effects.
Local Open Scope js_scope.

(** The codes of [DriveServerWipError] that the wrapper produces. *)
Inductive ErrorCode : Type :=
| UNKNOWN
| NETWORK
| ABORTED.

(** [new DriveServerWipError(code, cause)] *)
Record DriveServerWipError : Type := mkDriveServerWipError {
  code : ErrorCode;
  cause : Js.Value
}.

(** [TLoggerBody]: a [msg] string and the other properties of the body. *)
Record TLoggerBody : Type := mkLoggerBody {
  msg : string;
  attributes : Js.Object
}.

(** [{ ...loggerBody }] *)
Definition spread (b : TLoggerBody) : Js.Object :=
  ("msg", Js.Str (msg b)) :: attributes b.

(** The exports of [./helpers/error-helpers] that the wrapper imports.  The
    wrapper is verified against their interface, whatever implements it:
    the two recognisers, the [data] of [fetchExceptionSchema.safeParse(exc)]
    ([Js.Undefined] when the parse fails), and the [networkErrorIssue]
    constant. *)
Class ErrorHelpers : Type := {
  isAbortError : Js.Value -> bool;
  isNetworkConnectivityError : Js.Value -> bool;
  fetchExceptionSchema_safeParse_data : Js.Value -> Js.Value;
  networkErrorIssue : Js.Value
}.

Definition jsonParseHint : string :=
  "The server may have returned HTML or another non-JSON response. Check the logs above for response details.".

(** The [excMessage] object of the JSON-parse branch. *)
Definition jsonParseContext (message : string) : Js.Value :=
  Js.Obj [ ("error", Js.Str "JSON Parse Error");
           ("message", Js.Str message);
           ("hint", Js.Str jsonParseHint) ].

Definition isJsonParseException (exc : Js.Value) : bool :=
  if Js.instanceof_SyntaxError exc then
    let message := Js.message_of exc in
    Js.includes message "Unexpected token"
    || Js.includes message "JSON"
    || Js.includes message "Unexpected end of JSON"
    || Js.includes message "Unexpected string in JSON"
  else false.

(** The object that [parseException] returns. *)
Record Parsed : Type := mkParsed {
  isAbort : bool;
  isNetwork : bool;
  isJsonParseError : bool;
  excMessage : Js.Value
}.

(** The effect by which a process of type [pt] notifies a connectivity
    issue: over IPC from a renderer, directly otherwise. *)
Definition notification (pt : ProcessType) (issue : Js.Value) : Effect :=
  match pt with
  | Renderer => IpcSend "ADD_GENERAL_ISSUE" issue
  | _ => AddGeneralIssue issue
  end.

Section Wrapper.
Context `{Logger} `{ErrorHelpers}.

Definition parseException (exc : Js.Value) : Parsed :=
  let isAbort := isAbortError exc in
  let isNetwork := isNetworkConnectivityError exc in
  let isJsonParseError := isJsonParseException exc in
  let res := mkParsed isAbort isNetwork isJsonParseError in
  if isNetwork then res (fetchExceptionSchema_safeParse_data exc)
  else if isAbort then res (Js.Str "Aborted")
  else if isJsonParseError then
    res (jsonParseContext
           (if Js.instanceof_Error exc then Js.message_of exc
            else Js.toString exc))
  else res exc.

(** The body that the wrapper hands to the logger:
    [{ ...loggerBody, msg: `${loggerBody.msg} was not successful`, retry,
       exc: excMessage }]. *)
Definition errorBody (loggerBody : TLoggerBody) (retry : Z)
    (excMessage : Js.Value) : Js.Object :=
  Js.obj_set "exc" excMessage
    (Js.obj_set "retry" (Js.Number retry)
       (Js.obj_set "msg" (Js.Str (msg loggerBody ++ " was not successful"))
          (spread loggerBody))).

Definition exceptionWrapper (loggerBody : TLoggerBody) (exc : Js.Value)
    (retry : Z) : M DriveServerWipError :=
  let p := parseException exc in
  loggedError <- logger_error (errorBody loggerBody retry (excMessage p)) ;;
  if isNetwork p then
    (pt <- process_type ;;
     match pt with
     | Renderer => perform (IpcSend "ADD_GENERAL_ISSUE" networkErrorIssue)
     | _ => perform (AddGeneralIssue networkErrorIssue)
     end) ;;
    ret (mkDriveServerWipError NETWORK loggedError)
  else if isAbort p then
    ret (mkDriveServerWipError ABORTED loggedError)
  else
    ret (mkDriveServerWipError UNKNOWN loggedError).

End Wrapper.

End ExceptionWrapper.

(** ** What becomes of a classified failure *)

Module Orchestrator.
Import ExceptionWrapper.



End Orchestrator.

(** ** The response middleware: [HttpClient/client.ts] *)

Module HttpClient.
Import Effects.
Local Open Scope js_scope.

Definition MAX_RESPONSE_BODY_LOG_LENGTH : nat := 500.

(** A [Headers] object: its header list, names as they were given. *)
Definition Headers := list (string * string).

Definition same_name (name : string) (kv : string * string) : bool :=
  String.eqb (Js.toLowerCase (fst kv)) (Js.toLowerCase name).

(** The values stored under [name], in order. *)
Definition headers_values (h : Headers) (name : string) : list string :=
  map snd (filter (same_name name) h).

(** [headers.get(name)]: names match without regard to case, several
    values are joined with a comma and a space, no value is [null]. *)
Definition headers_get (h : Headers) (name : string) : option string :=
  match headers_values h name with
  | [] => None
  | vs => Some (String.concat ", " vs)
  end.

Fixpoint insert_sorted (n : string) (l : list string) : list string :=
  match l with
  | [] => [n]
  | m :: l' => if String.leb n m then n :: m :: l' else m :: insert_sorted n l'
  end.

Definition sort_names (l : list string) : list string :=
  fold_right insert_sorted [] l.

(** The lower-cased names of the header list, each once, sorted. *)
Definition headers_names (h : Headers) : list string :=
  sort_names (nodup string_dec (map (fun kv => Js.toLowerCase (fst kv)) h)).

(** The [(key, value)] pairs that [headers.forEach] visits, in order:
    sorted lower-cased names with their combined value, except
    [set-cookie], whose values are visited one by one. *)
Definition headers_entries (h : Headers) : list (string * string) :=
  flat_map
    (fun n =>
       if String.eqb n "set-cookie"
       then map (fun v => (n, v)) (headers_values h n)
       else [(n, String.concat ", " (headers_values h n))])
    (headers_names h).

(** [responseHeaders[key] = value] on the plain object [responseHeaders],
    [value] being a string.  The key [__proto__] reaches the setter that
    [Object.prototype] has for it, which ignores a string: nothing is
    stored.  Any other key becomes an own property, or takes the new value
    when it is one already. *)
Definition assign_header (o : Js.Object) (kv : string * string) : Js.Object :=
  if String.eqb (fst kv) "__proto__" then o
  else Js.obj_set (fst kv) (Js.Str (snd kv)) o.

(** [response.headers.forEach((value, key) => { responseHeaders[key] = value })]
    from an empty [responseHeaders]. *)
Definition collect_headers (h : Headers) : Js.Object :=
  fold_left assign_header (headers_entries h) [].

(** A [Response] as the middleware receives it, its body not yet read:
    [text] is how reading the body of a clone ends, with the text or with
    the value that the read rejects with. *)
Record Response : Type := mkResponse {
  status : Z;
  statusText : string;
  headers : Headers;
  text : Completion string
}.

Definition clone (r : Response) : Response := r.

(** [await clonedResponse.text()] *)
Definition read_text (r : Response) : M string :=
  fun w => (text r, w).

(** A [string | null] as a value. *)
Definition nullable (o : option string) : Js.Value :=
  match o with
  | Some s => Js.Str s
  | None => Js.Null
  end.

(** [!x] for [x : boolean | undefined] *)
Definition not_truthy (o : option bool) : bool :=
  match o with
  | Some true => false
  | _ => true
  end.

Definition unexpectedContentTypeBody (response : Response)
    (schemaPath : string) (contentType : option string)
    (responseHeaders : Js.Object) (responseBody : string) : Js.Object :=
  [ ("msg", Js.Str "Unexpected response content type");
    ("endpoint", Js.Str schemaPath);
    ("status", Js.Number (status response));
    ("statusText", Js.Str (statusText response));
    ("contentType", nullable contentType);
    ("responseHeaders", Js.Obj responseHeaders);
    ("responseBody",
     Js.Str (Js.substring0 MAX_RESPONSE_BODY_LOG_LENGTH responseBody)) ].

Definition failedToReadBody (schemaPath : string) (error : Js.Value)
    : Js.Object :=
  [ ("msg", Js.Str "Failed to read response body for logging");
    ("endpoint", Js.Str schemaPath);
    ("error", error) ].

Definition handleOnUserUnauthorized : M unit :=
  pt <- process_type ;;
  match pt with
  | Renderer => perform (IpcEmit "USER_LOGGED_OUT")
  | _ => perform (EventBusEmit "USER_LOGGED_OUT")
  end.

Definition isJsonContentType (contentType : option string) : option bool :=
  option_map (fun c => Js.includes c "application/json") contentType.

Definition isEmptyResponse (response : Response) : bool :=
  (status response =? 204)%Z
  || match headers_get (headers response) "Content-Length" with
     | Some v => String.eqb v "0"
     | None => false
     end.

Definition shouldLogResponse (response : Response) : bool :=
  let contentType := headers_get (headers response) "content-type" in
  negb (isEmptyResponse response)
  && not_truthy (isJsonContentType contentType).

(** The effect by which a process of type [pt] announces the end of the
    session: over the sync-engine IPC from a renderer, on the event bus
    otherwise. *)
Definition loggedOut (pt : ProcessType) : Effect :=
  match pt with
  | Renderer => IpcEmit "USER_LOGGED_OUT"
  | _ => EventBusEmit "USER_LOGGED_OUT"
  end.

(** The body that the [try] block logs when the text can be read, and the
    one that the [catch] block logs when it cannot. *)
Definition loggedBody (response : Response) (schemaPath : string)
    : Js.Object :=
  match text response with
  | Normal responseBody =>
      unexpectedContentTypeBody response schemaPath
        (headers_get (headers response) "content-type")
        (collect_headers (headers response)) responseBody
  | Throw error => failedToReadBody schemaPath error
  end.

Section Middleware.
Context `{Logger}.

(** [middleware.onResponse({ response, schemaPath })] *)
Definition onResponse (response : Response) (schemaPath : string)
    : M Js.Value :=
  (if (status response =? 401)%Z then handleOnUserUnauthorized else ret tt) ;;
  let contentType := headers_get (headers response) "content-type" in
  (if shouldLogResponse response then
     let clonedResponse := clone response in
     try_catch
       (responseBody <- read_text clonedResponse ;;
        let responseHeaders := collect_headers (headers response) in
        logger_error
          (unexpectedContentTypeBody response schemaPath contentType
             responseHeaders responseBody) ;;
        ret tt)
       (fun error =>
          logger_error (failedToReadBody schemaPath error) ;;
          ret tt)
   else ret tt) ;;
  ret Js.Undefined.

End Middleware.

End HttpClient.

(** ** Inputs and collaborators used to run the code

    The values of the two test suites, and one implementation of the
    helpers interface, so that every statement below can be evaluated. *)

Module Fixtures.
Import Effects ExceptionWrapper HttpClient.

(** The logger of the wrapper's test suite: [error: vi.fn((body) => body)]. *)
Definition echoLogger : Logger := {| logged := fun body => Js.Obj body |}.

(** [const loggerBody = { msg: 'Test request' }] and [const retry = 1] *)
Definition testLoggerBody : TLoggerBody := mkLoggerBody "Test request" [].

Definition testRetry : Z := 1.

Definition mainProcess : World := mkWorld Browser [].

Definition rendererProcess : World := mkWorld Renderer [].

(** Modelled from the spec: [cause.code] of a failure, the system error
    code that "connectivity/DNS/timeout class failures" carry; the helpers
    module that reads it is not among the sources. *)
Definition cause_code (exc : Js.Value) : option string :=
  let props :=
    match exc with
    | Js.ErrorObj _ _ _ props => props
    | Js.Obj props => props
    | _ => []
    end in
  match Js.obj_get "cause" props with
  | Some (Js.Obj c) =>
      match Js.obj_get "code" c with
      | Some (Js.Str s) => Some s
      | _ => None
      end
  | _ => None
  end.

(** Modelled from the spec: the codes of the "connectivity/DNS/timeout
    class failures" of section 4.5 (refused or reset connection, failed
    name resolution, timeout); the helpers module is not among the
    sources. *)
Definition connectivityCodes : list string :=
  [ "ECONNREFUSED"; "ECONNRESET"; "ENOTFOUND"; "ETIMEDOUT";
    "UND_ERR_CONNECT_TIMEOUT" ].

(** Modelled from the spec: an implementation of [./helpers/error-helpers],
    which is not among the sources.  ABORTED is a failure that "originates
    from an explicit cancellation signal": the error that an abort signal
    raises is named [AbortError].  NETWORK is a "connectivity/DNS/timeout
    class" failure: its cause carries one of [connectivityCodes].  The
    schema keeps the message and the own properties of an error, and the
    issue is a record that names the connectivity problem. *)
Definition fetchHelpers : ErrorHelpers := {|
  isAbortError := fun exc =>
    match exc with
    | Js.ErrorObj _ name _ _ => String.eqb name "AbortError"
    | _ => false
    end;
  isNetworkConnectivityError := fun exc =>
    match cause_code exc with
    | Some c => existsb (String.eqb c) connectivityCodes
    | None => false
    end;
  fetchExceptionSchema_safeParse_data := fun exc =>
    match exc with
    | Js.ErrorObj _ _ message props => Js.Obj (("message", Js.Str message) :: props)
    | _ => Js.Undefined
    end;
  networkErrorIssue :=
    Js.Obj [ ("tag", Js.Str "network");
             ("error", Js.Str "NETWORK_CONNECTIVITY_ERROR") ]
|}.

(** [new SyntaxError('Unexpected end of JSON input')] *)
Definition jsonParseError : Js.Value :=
  Js.ErrorObj Js.SyntaxError "SyntaxError" "Unexpected end of JSON input" [].

(** [new SyntaxError('Some other syntax error')] *)
Definition syntaxError : Js.Value :=
  Js.ErrorObj Js.SyntaxError "SyntaxError" "Some other syntax error" [].

(** [new DOMException('The operation was aborted', 'AbortError')] *)
Definition abortError : Js.Value :=
  Js.ErrorObj Js.DOMException "AbortError" "The operation was aborted" [].

(** A failed [fetch]: [TypeError: fetch failed] whose cause is a refused
    connection. *)
Definition connectionRefused : Js.Value :=
  Js.ErrorObj Js.TypeError "TypeError" "fetch failed"
    [ ("cause", Js.Obj [ ("code", Js.Str "ECONNREFUSED") ]) ].

(** A request cancelled through its abort signal because its deadline
    passed: the raised error is an [AbortError] whose cause is a timeout. *)
Definition abortedOnTimeout : Js.Value :=
  Js.ErrorObj Js.DOMException "AbortError" "The operation was aborted"
    [ ("cause", Js.Obj [ ("code", Js.Str "ETIMEDOUT") ]) ].




(** The responses of the middleware's test suite. *)
Definition htmlErrorPage : Response :=
  mkResponse 500 "Internal Server Error"
    [ ("content-type", "text/html"); ("x-custom-header", "test-value") ]
    (Normal "<!doctype html><html>Error page</html>").

Definition jsonResponse : Response :=
  mkResponse 200 "OK" [ ("content-type", "application/json") ]
    (Normal "{ data: test }").

Definition noContent : Response :=
  mkResponse 204 "No Content" [ ("content-type", "text/plain") ]
    (Normal EmptyString).

Definition zeroLength : Response :=
  mkResponse 200 "OK"
    [ ("content-type", "text/plain"); ("content-length", "0") ]
    (Normal EmptyString).

(** [text: vi.fn().mockRejectedValue(new Error('Failed to read body'))] *)
Definition unreadable : Response :=
  mkResponse 500 "Internal Server Error" [ ("content-type", "text/html") ]
    (Throw (Js.ErrorObj Js.Error "Error" "Failed to read body" [])).

(** An expired session answered with an HTML page. *)
Definition unauthorized : Response :=
  mkResponse 401 "Unauthorized" [ ("Content-Type", "text/html") ]
    (Normal "<html>Unauthorized</html>").

End Fixtures.

(** ** The request middleware: [HttpClient/client.ts] *)

Module HttpRequest.
Import Effects HttpClient.
Local Open Scope js_scope.

(** What the request side reads from its surroundings: the object that
    [getAuthHeaders()] returns or the error it throws, the outcome of
    [ipcRendererSyncEngine.invoke('GET_HEADERS')], the [workspaceToken] of
    [getConfig()] ([None] for [undefined]), and the forbidden
    request-headers of the platform, which [Headers.set] skips (a browser
    has some, Node has none). *)
Class RequestEnv : Type := {
  getAuthHeaders : Completion Js.Object;
  invoke_GET_HEADERS : Completion Js.Object;
  config_workspaceToken : option string;
  forbidden_request_header : string -> string -> bool
}.

(** A [Request]: the middleware touches its headers only. *)
Record Request : Type := mkRequest {
  url : string;
  method : string;
  requestHeaders : Headers
}.

(** An awaited outcome, inside the monad. *)
Definition await {A} (c : Completion A) : M A := fun w => (c, w).

(** [new TypeError(message)] *)
Definition typeError (message : string) : Js.Value :=
  Js.ErrorObj Js.TypeError "TypeError" message [].

(** HTTP whitespace: tab, line feed, carriage return, space. *)
Definition is_http_whitespace (c : ascii) : bool :=
  let n := nat_of_ascii c in
  (n =? 9)%nat || (n =? 10)%nat || (n =? 13)%nat || (n =? 32)%nat.

Fixpoint strip_leading (s : string) : string :=
  match s with
  | EmptyString => EmptyString
  | String c s' => if is_http_whitespace c then strip_leading s' else s
  end.

Fixpoint strip_trailing (s : string) : string :=
  match s with
  | EmptyString => EmptyString
  | String c s' =>
      match strip_trailing s' with
      | EmptyString =>
          if is_http_whitespace c then EmptyString else String c EmptyString
      | t => String c t
      end
  end.

(** A header value is normalised by removing its leading and trailing
    HTTP whitespace. *)
Definition normalize_value (v : string) : string :=
  strip_trailing (strip_leading v).

(** The characters of a header name: letters, digits and
    [! # $ % & ' * + - . ^ _ ` | ~]. *)
Definition is_token_char (c : ascii) : bool :=
  let n := nat_of_ascii c in
  ((48 <=? n) && (n <=? 57))%nat
  || ((65 <=? n) && (n <=? 90))%nat
  || ((97 <=? n) && (n <=? 122))%nat
  || existsb (Nat.eqb n) [33; 35; 36; 37; 38; 39; 42; 43; 45; 46; 94; 95; 96; 124; 126].

Fixpoint all_chars (p : ascii -> bool) (s : string) : bool :=
  match s with
  | EmptyString => true
  | String c s' => p c && all_chars p s'
  end.

Definition valid_header_name (name : string) : bool :=
  negb (String.eqb name EmptyString) && all_chars is_token_char name.

(** A header value holds no NUL, line feed or carriage return. *)
Definition valid_header_value (v : string) : bool :=
  all_chars
    (fun c =>
       let n := nat_of_ascii c in
       negb ((n =? 0)%nat || (n =? 10)%nat || (n =? 13)%nat))
    v.

(** Setting a header in a header list: the first header of that name takes
    the value and the others of that name go; without one, the header is
    appended. *)
Fixpoint header_list_set (h : Headers) (name value : string) : Headers :=
  match h with
  | [] => [(name, value)]
  | kv :: h' =>
      if same_name name kv
      then (fst kv, value) :: filter (fun kv' => negb (same_name name kv')) h'
      else kv :: header_list_set h' name value
  end.

(** [getWorkspaceHeader({ workspaceToken })] *)
Definition getWorkspaceHeader (workspaceToken : string) : Js.Object :=
  [ ("x-internxt-workspace", Js.Str workspaceToken) ].

Section Request.
Context `{RequestEnv}.

(** [request.headers.set(name, value)]: the value is normalised; a name
    or a value that is not well formed throws a [TypeError]; a forbidden
    request-header is skipped. *)
Definition headers_set (h : Headers) (name value : string)
    : Completion Headers :=
  let value := normalize_value value in
  if negb (valid_header_name name) then
    Throw (typeError "Invalid header name")
  else if negb (valid_header_value value) then
    Throw (typeError "Invalid header value")
  else if forbidden_request_header name value then Normal h
  else Normal (header_list_set h name value).

(** [Object.entries(headers).forEach(([key, value]) =>
      request.headers.set(key, value))], the entries in the order in which
    [Object.entries] lists them; the first [set] that throws ends the
    loop. *)
Fixpoint set_entries (entries : Js.Object) (h : Headers)
    : Completion Headers :=
  match entries with
  | [] => Normal h
  | (key, value) :: entries' =>
      match headers_set h key (Js.toString value) with
      | Normal h' => set_entries entries' h'
      | Throw e => Throw e
      end
  end.

(** An entry of the headers object that [Headers.set] accepts: its key is
    a header name and its normalised value a header value. *)
Definition well_formed_entry (entry : string * Js.Value) : bool :=
  valid_header_name (fst entry)
  && valid_header_value (normalize_value (Js.toString (snd entry))).

(** What [headers.get(name)] gives after one accepted
    [set(key, value)], from what it gave before: the normalised value when
    the entry names the header and is not forbidden, the same as before
    otherwise. *)
Definition get_after_set (name : string) (before : option string)
    (entry : string * Js.Value) : option string :=
  let value := normalize_value (Js.toString (snd entry)) in
  if same_name name (fst entry, value)
     && negb (forbidden_request_header (fst entry) value)
  then Some value
  else before.

(** What [getHeaders()] resolves to, or rejects with, in a process of
    type [pt]. *)
Definition headers_of_process (pt : ProcessType) : Completion Js.Object :=
  match pt with
  | Renderer => invoke_GET_HEADERS
  | _ => getAuthHeaders
  end.

(** [getHeaders()] *)
Definition getHeaders : M Js.Object :=
  pt <- process_type ;;
  match pt with
  | Renderer => await invoke_GET_HEADERS
  | _ => await getAuthHeaders
  end.

(** The headers object after
    [if (workspaceToken) { headers['x-internxt-workspace'] = workspaceToken }]:
    an undefined or empty token is falsy. *)
Definition with_workspace (headers : Js.Object) : Js.Object :=
  match config_workspaceToken with
  | Some workspaceToken =>
      if String.eqb workspaceToken EmptyString then headers
      else Js.obj_set "x-internxt-workspace" (Js.Str workspaceToken) headers
  | None => headers
  end.

(** [middleware.onRequest({ request })] *)
Definition onRequest (request : Request) : M Request :=
  headers <- getHeaders ;;
  let headers := with_workspace headers in
  requestHeaders' <- await (set_entries headers (requestHeaders request)) ;;
  ret (mkRequest (url request) (method request) requestHeaders').

End Request.

End HttpRequest.

(** ** Collaborators and requests used to run the request middleware *)

Module RequestFixtures.
Import Effects HttpClient HttpRequest.

(** The environment of the test suite, in the main process:
    [getAuthHeaders: vi.fn(() => ({}))] and
    [getConfig: vi.fn(() => ({ workspaceToken: undefined }))]. *)
Definition testEnv : RequestEnv := {|
  getAuthHeaders := Normal [];
  invoke_GET_HEADERS := Normal [];
  config_workspaceToken := None;
  forbidden_request_header := fun _ _ => false
|}.

(** A signed-in user inside a workspace. *)
Definition workspaceEnv : RequestEnv := {|
  getAuthHeaders :=
    Normal [ ("Authorization", Js.Str "Bearer token");
             ("internxt-client", Js.Str "drive-desktop") ];
  invoke_GET_HEADERS :=
    Normal [ ("Authorization", Js.Str "Bearer token");
             ("internxt-client", Js.Str "drive-desktop") ];
  config_workspaceToken := Some "workspace-token";
  forbidden_request_header := fun _ _ => false
|}.

(** The headers cannot be had: the IPC call rejects and
    [getAuthHeaders] throws. *)
Definition signedOutEnv : RequestEnv := {|
  getAuthHeaders := Throw (Js.ErrorObj Js.Error "Error" "No token" []);
  invoke_GET_HEADERS := Throw (Js.ErrorObj Js.Error "Error" "No token" []);
  config_workspaceToken := Some "workspace-token";
  forbidden_request_header := fun _ _ => false
|}.

(** A header object with a name that is no token. *)
Definition brokenEnv : RequestEnv := {|
  getAuthHeaders :=
    Normal [ ("Authorization", Js.Str "Bearer token");
             ("bad name", Js.Str "x") ];
  invoke_GET_HEADERS := Normal [];
  config_workspaceToken := None;
  forbidden_request_header := fun _ _ => false
|}.

(** A signed-in user outside any workspace. *)
Definition personalEnv : RequestEnv := {|
  getAuthHeaders :=
    Normal [ ("Authorization", Js.Str "Bearer token");
             ("internxt-client", Js.Str "drive-desktop") ];
  invoke_GET_HEADERS :=
    Normal [ ("Authorization", Js.Str "Bearer token");
             ("internxt-client", Js.Str "drive-desktop") ];
  config_workspaceToken := None;
  forbidden_request_header := fun _ _ => false
|}.

(** A header object that spells one name in two ways. *)
Definition clashEnv : RequestEnv := {|
  getAuthHeaders :=
    Normal [ ("Authorization", Js.Str "Bearer first");
             ("authorization", Js.Str "  Bearer second ") ];
  invoke_GET_HEADERS := Normal [];
  config_workspaceToken := None;
  forbidden_request_header := fun _ _ => false
|}.

Definition getFiles : Request :=
  mkRequest "/files" "GET"
    [ ("Accept", "application/json"); ("authorization", "Bearer stale") ].

End RequestFixtures.

(** * Properties *)

(** ** Objects and strings *)

Module JsFacts.
Import Js.

Lemma obj_get_set_eq (k : string) (v : Value) (o : Object) :
  obj_get k (obj_set k v o) = Some v.
Proof.
  induction o as [| [k' v'] o IH]; simpl.
  - now rewrite String.eqb_refl.
  - destruct (String.eqb k k') eqn:E; simpl.
    + now rewrite String.eqb_refl.
    + now rewrite E.
Qed.

Lemma obj_get_set_ne (k k' : string) (v : Value) (o : Object) :
  k <> k' -> obj_get k (obj_set k' v o) = obj_get k o.
Proof.
  intros Hne. induction o as [| [k0 v0] o IH]; simpl.
  - apply String.eqb_neq in Hne. now rewrite Hne.
  - destruct (String.eqb k' k0) eqn:E; simpl.
    + apply String.eqb_eq in E. subst k0.
      apply String.eqb_neq in Hne. now rewrite Hne.
    + now rewrite IH.
Qed.

Lemma prefix_app (sub s : string) :
  String.prefix sub s = true <-> exists b, s = (sub ++ b)%string.
Proof.
  revert s. induction sub as [| c sub IH]; intros s; simpl.
  - split; [intros _; now exists s | now destruct s].
  - destruct s as [| d s]; simpl.
    + split; [discriminate | intros [b Hb]; discriminate].
    + destruct (ascii_dec c d) as [-> | Hcd].
      * rewrite IH. split; intros [b Hb]; exists b; congruence.
      * split; [discriminate | intros [b Hb]; congruence].
Qed.

Lemma includes_unfold (s sub : string) :
  includes s sub =
  String.prefix sub s
  || match s with
     | EmptyString => false
     | String _ s' => includes s' sub
     end.
Proof. now destruct s. Qed.

(** [includes] finds exactly the substrings. *)
Lemma includes_app (s sub : string) :
  includes s sub = true <-> exists a b, s = (a ++ sub ++ b)%string.
Proof.
  induction s as [| c s IH]; rewrite includes_unfold.
  - rewrite orb_false_r, prefix_app. split.
    + intros [b Hb]. now exists EmptyString, b.
    + intros [a [b Hab]]. destruct a; simpl in Hab.
      * now exists b.
      * discriminate.
  - rewrite orb_true_iff, prefix_app, IH. split.
    + intros [[b Hb] | [a [b Hab]]].
      * now exists EmptyString, b.
      * exists (String c a), b. simpl. now rewrite Hab.
    + intros [a [b Hab]]. destruct a as [| d a]; simpl in Hab.
      * left. now exists b.
      * right. exists a, b. congruence.
Qed.

Lemma append_assoc (a b c : string) :
  ((a ++ b) ++ c = a ++ b ++ c)%string.
Proof. induction a as [| x a IH]; simpl; [reflexivity | now rewrite IH]. Qed.

(** A string that contains [mid] contains what [mid] contains. *)
Lemma includes_trans (s mid sub : string) :
  includes mid sub = true -> includes s mid = true -> includes s sub = true.
Proof.
  rewrite !includes_app. intros [a [b ->]] [a' [b' ->]].
  exists (a' ++ a)%string, (b ++ b')%string. now rewrite !append_assoc.
Qed.

Lemma substring0_length (n : nat) (s : string) :
  String.length (substring0 n s) = Nat.min n (String.length s).
Proof.
  unfold substring0. revert n.
  induction s as [| c s IH]; intros [| n]; simpl; try reflexivity.
  now rewrite IH.
Qed.

Lemma substring0_prefix (n : nat) (s : string) :
  exists rest, s = (substring0 n s ++ rest)%string.
Proof.
  unfold substring0. revert n.
  induction s as [| c s IH]; intros [| n]; simpl.
  - now exists EmptyString.
  - now exists EmptyString.
  - now exists (String c s).
  - destruct (IH n) as [rest Hrest]. exists rest. now rewrite <- Hrest.
Qed.

Lemma substring0_short (n : nat) (s : string) :
  (String.length s <= n)%nat -> substring0 n s = s.
Proof.
  unfold substring0. revert n.
  induction s as [| c s IH]; intros [| n] Hlen; simpl in *; try reflexivity; try lia.
  rewrite IH; [reflexivity | lia].
Qed.

End JsFacts.

(** ** Traces *)

Module EffectsFacts.
Import Effects.

Lemma loggerCalls_app (t u : list Effect) :
  loggerCalls (t ++ u) = loggerCalls t ++ loggerCalls u.
Proof.
  induction t as [| e t IH]; simpl; [reflexivity |].
  destruct e; simpl; now rewrite IH.
Qed.

Lemma issueNotifications_app (t u : list Effect) :
  issueNotifications (t ++ u) = issueNotifications t ++ issueNotifications u.
Proof.
  induction t as [| e t IH]; simpl; [reflexivity |].
  destruct e as [body | ev | ev | ch payload | issue]; simpl;
    try destruct (String.eqb ch _); simpl; now rewrite IH.
Qed.

End EffectsFacts.

(** ** The error classifier *)

Module ExceptionWrapperSpec.
Import Effects ExceptionWrapper Fixtures.
Import JsFacts EffectsFacts.

Section Facts.
Context `{Logger} `{ErrorHelpers}.

(** A recognised JSON parse error is an error object, so the message of
    its context is [exc.message], never [String(exc)]. *)
Lemma isJsonParseException_is_error (exc : Js.Value) :
  isJsonParseException exc = true -> Js.instanceof_Error exc = true.
Proof.
  unfold isJsonParseException.
  destruct exc as [| | b | n | s | props | ctor name message props];
    simpl; try discriminate.
  reflexivity.
Qed.

(** What [parseException] hands on as [excMessage], branch by branch. *)
Lemma parseException_excMessage (exc : Js.Value) :
  excMessage (parseException exc) =
  if isNetworkConnectivityError exc
  then fetchExceptionSchema_safeParse_data exc
  else if isAbortError exc then Js.Str "Aborted"
  else if isJsonParseException exc
       then jsonParseContext (Js.message_of exc)
       else exc.
Proof.
  unfold parseException.
  destruct (isNetworkConnectivityError exc); [reflexivity |].
  destruct (isAbortError exc); [reflexivity |].
  destruct (isJsonParseException exc) eqn:E; [| reflexivity].
  simpl. now rewrite (isJsonParseException_is_error exc E).
Qed.

Lemma parseException_flags (exc : Js.Value) :
  isNetwork (parseException exc) = isNetworkConnectivityError exc
  /\ isAbort (parseException exc) = isAbortError exc
  /\ isJsonParseError (parseException exc) = isJsonParseException exc.
Proof.
  unfold parseException.
  destruct (isNetworkConnectivityError exc), (isAbortError exc),
    (isJsonParseException exc); repeat split.
Qed.

(** One run of the wrapper, in full: its result and the effects it adds. *)
Lemma exceptionWrapper_run (loggerBody : TLoggerBody) (exc : Js.Value)
    (retry : Z) (w : World) :
  exceptionWrapper loggerBody exc retry w =
  let body := errorBody loggerBody retry (excMessage (parseException exc)) in
  (Normal
     (mkDriveServerWipError
        (if isNetworkConnectivityError exc then NETWORK
         else if isAbortError exc then ABORTED else UNKNOWN)
        (logged body)),
   mkWorld (processType w)
     (trace w ++ LoggerError body ::
        (if isNetworkConnectivityError exc
         then [notification (processType w) networkErrorIssue]
         else []))).
Proof.
  destruct (parseException_flags exc) as [Hn [Ha _]].
  unfold exceptionWrapper, bind, logger_error, process_type, perform, ret.
  cbn zeta. rewrite Hn, Ha.
  destruct (isNetworkConnectivityError exc).
  - destruct w as [[] t]; simpl; now rewrite <- app_assoc.
  - destruct (isAbortError exc); reflexivity.
Qed.

(** The logged body carries the message, the attempt count and the
    classified payload. *)
Lemma errorBody_fields (loggerBody : TLoggerBody) (retry : Z)
    (payload : Js.Value) :
  let body := errorBody loggerBody retry payload in
  Js.obj_get "exc" body = Some payload
  /\ Js.obj_get "retry" body = Some (Js.Number retry)
  /\ Js.obj_get "msg" body
     = Some (Js.Str (msg loggerBody ++ " was not successful")).
Proof.
  unfold errorBody. cbv zeta. split; [| split].
  - apply obj_get_set_eq.
  - rewrite obj_get_set_ne by discriminate. apply obj_get_set_eq.
  - rewrite !obj_get_set_ne by discriminate. apply obj_get_set_eq.
Qed.

(** The [exc] field of the logged body, branch by branch. *)
Lemma errorBody_exc (loggerBody : TLoggerBody) (retry : Z)
    (exc : Js.Value) :
  Js.obj_get "exc"
    (errorBody loggerBody retry (excMessage (parseException exc)))
  = Some (if isNetworkConnectivityError exc
          then fetchExceptionSchema_safeParse_data exc
          else if isAbortError exc then Js.Str "Aborted"
          else if isJsonParseException exc
               then jsonParseContext (Js.message_of exc)
               else exc).
Proof.
  destruct (errorBody_fields loggerBody retry
              (excMessage (parseException exc))) as [He _].
  cbv zeta in He. now rewrite He, parseException_excMessage.
Qed.

(** C1 (as amended).  The classifier checks the taxonomy in the order
    NETWORK, then ABORTED, then the JSON parse error, then UNKNOWN: the
    returned kind is NETWORK for every failure that qualifies as a
    network-connectivity failure, also when it qualifies as an abort
    failure; it is ABORTED for an abort failure that is no network failure,
    and UNKNOWN otherwise.  The logged payload follows the same order. *)
Theorem classifier_checks_network_first (loggerBody : TLoggerBody)
    (exc : Js.Value) (retry : Z) (w : World) :
  exists err w',
    exceptionWrapper loggerBody exc retry w = (Normal err, w')
    /\ code err =
       (if isNetworkConnectivityError exc then NETWORK
        else if isAbortError exc then ABORTED
        else UNKNOWN)
    /\ excMessage (parseException exc) =
       (if isNetworkConnectivityError exc
        then fetchExceptionSchema_safeParse_data exc
        else if isAbortError exc then Js.Str "Aborted"
        else if isJsonParseException exc
             then jsonParseContext (Js.message_of exc)
             else exc).
Proof.
  rewrite exceptionWrapper_run. cbv zeta.
  eexists; eexists. split; [reflexivity |]. split.
  - reflexivity.
  - apply parseException_excMessage.
Qed.

(** C2.  Whatever the failure, the wrapper calls the logger exactly once,
    returns a [DriveServerWipError] that wraps what the logger returned,
    and does not throw. *)
Theorem exceptionWrapper_logs_once_and_returns (loggerBody : TLoggerBody)
    (exc : Js.Value) (retry : Z) (w : World) :
  exists err w' body,
    exceptionWrapper loggerBody exc retry w = (Normal err, w')
    /\ loggerCalls (trace w') = loggerCalls (trace w) ++ [body]
    /\ length (loggerCalls (trace w')) = S (length (loggerCalls (trace w)))
    /\ cause err = logged body
    /\ Js.obj_get "retry" body = Some (Js.Number retry)
    /\ Js.obj_get "msg" body
       = Some (Js.Str (msg loggerBody ++ " was not successful")).
Proof.
  rewrite exceptionWrapper_run. cbv zeta.
  set (body := errorBody loggerBody retry (excMessage (parseException exc))).
  assert (Hcalls :
    loggerCalls
      (trace w ++ LoggerError body ::
         (if isNetworkConnectivityError exc
          then [notification (processType w) networkErrorIssue]
          else []))
    = loggerCalls (trace w) ++ [body]).
  { rewrite loggerCalls_app. f_equal.
    destruct (isNetworkConnectivityError exc); [| reflexivity].
    destruct (processType w); reflexivity. }
  exists (mkDriveServerWipError
            (if isNetworkConnectivityError exc then NETWORK
             else if isAbortError exc then ABORTED else UNKNOWN)
            (logged body)).
  eexists. exists body.
  split; [reflexivity |]. simpl trace. rewrite Hcalls.
  split; [reflexivity |].
  split; [rewrite length_app; simpl; lia |].
  split; [reflexivity |].
  destruct (errorBody_fields loggerBody retry
              (excMessage (parseException exc))) as [_ [Hr Hm]].
  split; assumption.
Qed.

(** C4.  A failure that is neither an abort nor a network failure comes
    back as UNKNOWN, a JSON parse error included; when it is no JSON parse
    error either, the logger receives the raw value unchanged. *)
Theorem neither_abort_nor_network_is_unknown (loggerBody : TLoggerBody)
    (exc : Js.Value) (retry : Z) (w : World) :
  isAbortError exc = false ->
  isNetworkConnectivityError exc = false ->
  exists err w' body,
    exceptionWrapper loggerBody exc retry w = (Normal err, w')
    /\ code err = UNKNOWN
    /\ trace w' = trace w ++ [LoggerError body]
    /\ cause err = logged body
    /\ Js.obj_get "exc" body =
       Some (if isJsonParseException exc
             then jsonParseContext (Js.message_of exc)
             else exc).
Proof.
  intros Ha Hn. rewrite exceptionWrapper_run. cbv zeta.
  rewrite Hn, Ha.
  eexists; eexists; eexists.
  split; [reflexivity |]. split; [reflexivity |].
  split; [reflexivity |]. split; [reflexivity |].
  rewrite errorBody_exc, Hn, Ha. reflexivity.
Qed.

(** C5.  The wrapper notifies a connectivity issue exactly when it
    classifies the failure as NETWORK, which is exactly when the failure
    is a network-connectivity failure; the notification goes over IPC in a
    renderer and to the issue store otherwise. *)
Theorem notification_iff_network (loggerBody : TLoggerBody)
    (exc : Js.Value) (retry : Z) (w : World) :
  exists err w',
    exceptionWrapper loggerBody exc retry w = (Normal err, w')
    /\ issueNotifications (trace w') =
       issueNotifications (trace w) ++
       match code err with
       | NETWORK => [networkErrorIssue]
       | _ => []
       end
    /\ (code err = NETWORK <-> isNetworkConnectivityError exc = true)
    /\ exists body,
         trace w' = trace w ++ LoggerError body ::
           match code err with
           | NETWORK => [notification (processType w) networkErrorIssue]
           | _ => []
           end.
Proof.
  rewrite exceptionWrapper_run. cbv zeta.
  eexists; eexists. split; [reflexivity |].
  simpl trace. simpl code. rewrite issueNotifications_app.
  destruct (isNetworkConnectivityError exc).
  - split; [| split].
    + f_equal. destruct (processType w); reflexivity.
    + split; reflexivity.
    + eexists; reflexivity.
  - destruct (isAbortError exc).
    + split; [| split].
      * reflexivity.
      * split; discriminate.
      * eexists; reflexivity.
    + split; [| split].
      * reflexivity.
      * split; discriminate.
      * eexists; reflexivity.
Qed.


(** The last two tests of [isJsonParseException] add nothing: a message
    that contains either of them contains ['JSON']. *)
Lemma isJsonParseException_two_tests (ctor : Js.ErrorCtor)
    (name message : string) (props : Js.Object) :
  isJsonParseException (Js.ErrorObj ctor name message props) =
  Js.instanceof_SyntaxError (Js.ErrorObj ctor name message props)
  && (Js.includes message "Unexpected token" || Js.includes message "JSON").
Proof.
  unfold isJsonParseException.
  destruct (Js.instanceof_SyntaxError _); [| reflexivity].
  cbv zeta. simpl Js.message_of. rewrite andb_true_l.
  destruct (Js.includes message "Unexpected token"); [reflexivity |].
  destruct (Js.includes message "JSON") eqn:EJ; [reflexivity |].
  simpl.
  destruct (Js.includes message "Unexpected end of JSON") eqn:E1.
  { rewrite (includes_trans message "Unexpected end of JSON" "JSON") in EJ;
      [discriminate | reflexivity | exact E1]. }
  destruct (Js.includes message "Unexpected string in JSON") eqn:E2.
  { rewrite (includes_trans message "Unexpected string in JSON" "JSON") in EJ;
      [discriminate | reflexivity | exact E2]. }
  reflexivity.
Qed.



End Facts.

(** C7 (as amended).  The kind is a function of the raw failure alone: two
    invocations on the same failure return the same kind, whatever the
    logger, the logger body, the retry count, the process type and the
    effects so far.  An invocation is not free of effects: it adds one
    logger call to the trace and, for NETWORK, one notification. *)
Theorem classification_is_deterministic_with_effects (L L' : Logger)
    (helpers : ErrorHelpers) (loggerBody loggerBody' : TLoggerBody)
    (exc : Js.Value) (retry retry' : Z) (w w' : World) :
  exists err v err' v',
    @exceptionWrapper L helpers loggerBody exc retry w = (Normal err, v)
    /\ @exceptionWrapper L' helpers loggerBody' exc retry' w'
       = (Normal err', v')
    /\ code err = code err'
    /\ length (trace v) =
       length (trace w) + match code err with NETWORK => 2 | _ => 1 end
    /\ length (trace v') =
       length (trace w') + match code err' with NETWORK => 2 | _ => 1 end.
Proof.
  rewrite !exceptionWrapper_run. cbv zeta.
  do 4 eexists.
  split; [reflexivity |]. split; [reflexivity |].
  split; [reflexivity |].
  simpl trace. simpl code. rewrite !length_app.
  destruct (isNetworkConnectivityError exc); [split; reflexivity |].
  destruct (isAbortError exc); split; reflexivity.
Qed.

(** *** The statements at the values of the test suite *)

Lemma neither_abort_nor_network_is_unknown_witness :
  @isAbortError fetchHelpers syntaxError = false
  /\ @isNetworkConnectivityError fetchHelpers syntaxError = false
  /\ exists err w' body,
       @exceptionWrapper echoLogger fetchHelpers
         testLoggerBody syntaxError testRetry mainProcess = (Normal err, w')
       /\ code err = UNKNOWN
       /\ trace w' = trace mainProcess ++ [LoggerError body]
       /\ cause err = @logged echoLogger body
       /\ Js.obj_get "exc" body =
          Some (if isJsonParseException syntaxError
                then jsonParseContext (Js.message_of syntaxError)
                else syntaxError).
Proof.
  split; [reflexivity |]. split; [reflexivity |].
  apply (@neither_abort_nor_network_is_unknown echoLogger fetchHelpers
           testLoggerBody syntaxError testRetry mainProcess);
    reflexivity.
Defined.





(** *** Where the claims as first stated fail *)

(** C1 as first stated puts ABORTED before NETWORK.  A request cancelled
    on its deadline is an abort failure and a network failure at once; the
    wrapper returns NETWORK for it and logs the parsed failure, not
    ['Aborted']. *)
Lemma abort_does_not_precede_network :
  @isAbortError fetchHelpers abortedOnTimeout = true
  /\ @isNetworkConnectivityError fetchHelpers abortedOnTimeout = true
  /\ exists err w',
       @exceptionWrapper echoLogger fetchHelpers
         testLoggerBody abortedOnTimeout testRetry mainProcess
       = (Normal err, w')
       /\ code err = NETWORK
       /\ code err <> ABORTED.
Proof.
  split; [reflexivity |]. split; [reflexivity |].
  eexists; eexists. split; [reflexivity |].
  split; [reflexivity | discriminate].
Qed.

(** C7 as first stated has the classifier free of effects.  Classifying
    the abort error of the test suite leaves a logger call in the trace. *)
Lemma classification_has_effects :
  exists err w',
    @exceptionWrapper echoLogger fetchHelpers
      testLoggerBody abortError testRetry mainProcess = (Normal err, w')
    /\ trace w' <> trace mainProcess
    /\ length (loggerCalls (trace w')) = 1.
Proof.
  eexists; eexists. split; [reflexivity |].
  split; [discriminate | reflexivity].
Qed.

End ExceptionWrapperSpec.

(** ** The response middleware *)

Module HttpClientSpec.
Import Effects HttpClient Fixtures.
Import JsFacts EffectsFacts.

(** *** Header names *)

Lemma lower_ascii_idempotent (c : ascii) :
  Js.lower_ascii (Js.lower_ascii c) = Js.lower_ascii c.
Proof.
  destruct c as [[] [] [] [] [] [] [] []]; reflexivity.
Qed.

Lemma toLowerCase_idempotent (s : string) :
  Js.toLowerCase (Js.toLowerCase s) = Js.toLowerCase s.
Proof.
  induction s as [| c s IH]; simpl; [reflexivity |].
  now rewrite lower_ascii_idempotent, IH.
Qed.

(** Looking a name up does not depend on its case. *)
Lemma headers_values_lower (h : Headers) (name : string) :
  headers_values h (Js.toLowerCase name) = headers_values h name.
Proof.
  unfold headers_values, same_name.
  now rewrite toLowerCase_idempotent.
Qed.

Lemma headers_values_present (h : Headers) (k v : string) :
  In (k, v) h -> headers_values h k <> [].
Proof.
  intros Hin Hnil. unfold headers_values in Hnil.
  apply map_eq_nil in Hnil.
  assert (Hf : In (k, v) (filter (same_name k) h)).
  { apply filter_In. split; [exact Hin |].
    unfold same_name. simpl. apply String.eqb_refl. }
  rewrite Hnil in Hf. exact Hf.
Qed.

(** *** The order in which [forEach] visits the names *)

Lemma In_insert_sorted (x n : string) (l : list string) :
  In x (insert_sorted n l) <-> x = n \/ In x l.
Proof.
  induction l as [| m l IH]; simpl.
  - intuition.
  - destruct (String.leb n m); simpl; [intuition |].
    rewrite IH. intuition.
Qed.

Lemma NoDup_insert_sorted (n : string) (l : list string) :
  ~ In n l -> NoDup l -> NoDup (insert_sorted n l).
Proof.
  induction l as [| m l IH]; simpl; intros Hn Hl.
  - constructor; [intros [] | constructor].
  - destruct (String.leb n m).
    + constructor; [exact Hn | exact Hl].
    + inversion Hl as [| ? ? Hm Hl']; subst.
      constructor.
      * rewrite In_insert_sorted. intros [-> | Hin]; [apply Hn; now left | contradiction].
      * apply IH; [intros Hin; apply Hn; now right | exact Hl'].
Qed.

Lemma In_sort_names (x : string) (l : list string) :
  In x (sort_names l) <-> In x l.
Proof.
  induction l as [| n l IH]; simpl; [reflexivity |].
  rewrite In_insert_sorted, IH. intuition.
Qed.

Lemma NoDup_sort_names (l : list string) :
  NoDup l -> NoDup (sort_names l).
Proof.
  induction 1 as [| n l Hn Hl IH]; simpl; [constructor |].
  apply NoDup_insert_sorted; [now rewrite In_sort_names | exact IH].
Qed.

Lemma In_headers_names (h : Headers) (n : string) :
  In n (headers_names h) <-> exists k v, In (k, v) h /\ n = Js.toLowerCase k.
Proof.
  unfold headers_names. rewrite In_sort_names, nodup_In, in_map_iff.
  split.
  - intros [[k v] [Hk Hin]]. exists k, v. split; [exact Hin | now rewrite <- Hk].
  - intros [k [v [Hin ->]]]. exists (k, v). split; [reflexivity | exact Hin].
Qed.

Lemma NoDup_headers_names (h : Headers) : NoDup (headers_names h).
Proof. apply NoDup_sort_names, NoDup_nodup. Qed.

(** *** The [responseHeaders] object *)

Lemma fold_set_other (entries : list (string * string)) (o : Js.Object)
    (k : string) :
  ~ In k (map fst entries) ->
  Js.obj_get k (fold_left assign_header entries o) = Js.obj_get k o.
Proof.
  revert o. induction entries as [| [k' v'] entries IH]; intros o Hk; simpl.
  - reflexivity.
  - rewrite IH.
    + unfold assign_header. simpl.
      destruct (String.eqb k' "__proto__"); [reflexivity |].
      apply obj_get_set_ne. intros ->. apply Hk. now left.
    + intros Hin. apply Hk. now right.
Qed.

(** The last assignment to a key is the one that stays. *)
Lemma fold_set_last (pre post : list (string * string)) (o : Js.Object)
    (k v : string) :
  k <> "__proto__" ->
  ~ In k (map fst post) ->
  Js.obj_get k (fold_left assign_header (pre ++ (k, v) :: post) o)
  = Some (Js.Str v).
Proof.
  intros Hproto Hk. rewrite fold_left_app. simpl.
  rewrite fold_set_other by exact Hk.
  unfold assign_header at 1. simpl.
  apply String.eqb_neq in Hproto. rewrite Hproto.
  apply obj_get_set_eq.
Qed.

(** No assignment stores a [__proto__] property. *)
Lemma fold_set_proto (entries : list (string * string)) (o : Js.Object) :
  Js.obj_get "__proto__" (fold_left assign_header entries o)
  = Js.obj_get "__proto__" o.
Proof.
  revert o. induction entries as [| [k' v'] entries IH]; intros o; simpl.
  - reflexivity.
  - rewrite IH. unfold assign_header. simpl.
    destruct (String.eqb k' "__proto__") eqn:E; [reflexivity |].
    apply obj_get_set_ne. intros <-. now rewrite String.eqb_refl in E.
Qed.

(** Every header of the response is in [responseHeaders], under its
    lower-cased name and with the value that [headers.get] gives
    ([set-cookie], which [forEach] does not combine, and [__proto__],
    which the assignment does not store, apart). *)
Lemma collect_headers_get (h : Headers) (k v : string) :
  In (k, v) h ->
  Js.toLowerCase k <> "set-cookie" ->
  Js.toLowerCase k <> "__proto__" ->
  Js.obj_get (Js.toLowerCase k) (collect_headers h)
  = option_map Js.Str (headers_get h k)
  /\ headers_get h k <> None.
Proof.
  intros Hin Hcookie Hproto.
  assert (Hget : headers_get h k
                 = Some (String.concat ", " (headers_values h k))).
  { unfold headers_get.
    pose proof (headers_values_present h k v Hin) as Hne.
    destruct (headers_values h k); [contradiction | reflexivity]. }
  split; [| rewrite Hget; discriminate].
  rewrite Hget. simpl.
  set (n := Js.toLowerCase k) in *.
  assert (Hn : In n (headers_names h)).
  { apply In_headers_names. now exists k, v. }
  destruct (in_split _ _ Hn) as [l1 [l2 Hsplit]].
  pose proof (NoDup_headers_names h) as Hnd. rewrite Hsplit in Hnd.
  apply NoDup_remove_2 in Hnd.
  unfold collect_headers, headers_entries.
  set (f := fun n0 : string =>
              if String.eqb n0 "set-cookie"
              then map (fun v0 => (n0, v0)) (headers_values h n0)
              else [(n0, String.concat ", " (headers_values h n0))]).
  assert (Hkeys : forall m x, In x (map fst (f m)) -> x = m).
  { intros m x. unfold f. destruct (String.eqb m "set-cookie"); simpl.
    - rewrite map_map. simpl. rewrite in_map_iff.
      intros [y [Hy _]]. now symmetry.
    - intros [Hx | []]. now symmetry. }
  rewrite Hsplit, flat_map_app. simpl flat_map.
  assert (Hfn : f n = [(n, String.concat ", " (headers_values h k))]).
  { unfold f. apply String.eqb_neq in Hcookie. rewrite Hcookie.
    unfold n. now rewrite headers_values_lower. }
  rewrite Hfn. simpl app.
  apply fold_set_last; [exact Hproto |].
  rewrite in_map_iff. intros [[x y] [Hx Hxy]]. simpl in Hx. subst x.
  apply in_flat_map in Hxy. destruct Hxy as [m [Hm Hfm]].
  assert (n = m).
  { apply Hkeys. apply in_map_iff. now exists (n, y). }
  subst m. apply Hnd. apply in_or_app. now right.
Qed.

(** A header named [__proto__] is not in [responseHeaders]. *)
Lemma collect_headers_proto (h : Headers) :
  Js.obj_get "__proto__" (collect_headers h) = None.
Proof. unfold collect_headers. now rewrite fold_set_proto. Qed.

(** *** One run of the middleware *)

Section Facts.
Context `{Logger}.

Lemma onResponse_run (response : Response) (schemaPath : string)
    (w : World) :
  onResponse response schemaPath w =
  (Normal Js.Undefined,
   mkWorld (processType w)
     (trace w
      ++ (if (status response =? 401)%Z
          then [loggedOut (processType w)] else [])
      ++ (if shouldLogResponse response
          then [LoggerError (loggedBody response schemaPath)] else []))).
Proof.
  unfold onResponse, handleOnUserUnauthorized, loggedBody, bind, try_catch,
    read_text, clone, logger_error, process_type, perform, ret.
  destruct w as [pt t]. simpl processType. simpl trace.
  destruct (status response =? 401)%Z;
    destruct (shouldLogResponse response);
    destruct (text response) as [body | error];
    try destruct pt; simpl;
    rewrite <- ?app_assoc, ?app_nil_r; reflexivity.
Qed.

Lemma shouldLogResponse_cases (response : Response) :
  shouldLogResponse response =
  if isEmptyResponse response then false
  else match headers_get (headers response) "content-type" with
       | Some contentType =>
           negb (Js.includes contentType "application/json")
       | None => true
       end.
Proof.
  unfold shouldLogResponse, isJsonContentType.
  destruct (isEmptyResponse response); [reflexivity |].
  destruct (headers_get (headers response) "content-type") as [ct |];
    [| reflexivity].
  simpl. now destruct (Js.includes ct "application/json").
Qed.

Lemma loggerCalls_onResponse (response : Response) (schemaPath : string)
    (w : World) :
  loggerCalls
    (trace w
     ++ (if (status response =? 401)%Z
         then [loggedOut (processType w)] else [])
     ++ (if shouldLogResponse response
         then [LoggerError (loggedBody response schemaPath)] else []))
  = loggerCalls (trace w)
    ++ (if shouldLogResponse response
        then [loggedBody response schemaPath] else []).
Proof.
  rewrite !loggerCalls_app. f_equal.
  assert (Hout : loggerCalls
                   (if (status response =? 401)%Z
                    then [loggedOut (processType w)] else []) = []).
  { destruct (status response =? 401)%Z; [| reflexivity].
    destruct (processType w); reflexivity. }
  rewrite Hout. simpl.
  now destruct (shouldLogResponse response).
Qed.

(** C3 (as amended).  A response that is not empty and whose content type
    is not JSON makes the middleware log exactly one record.  When the
    body can be read, the record holds the endpoint, the status code, the
    status text, the content type, the response headers and the first 500
    characters of the body; when reading the body fails, the record holds
    the endpoint and the error of the read.  An empty response or one with
    a JSON content type adds no record.  The headers are in the record
    under their lower-cased names with the value that [headers.get] gives;
    of several [set-cookie] values the loop keeps one, and a header named
    [__proto__] is not stored by the assignment. *)
Theorem unexpected_content_type_logging (response : Response)
    (schemaPath : string) (w : World) :
  let contentType := headers_get (headers response) "content-type" in
  let record :=
    match text response with
    | Normal responseBody =>
        [ ("msg", Js.Str "Unexpected response content type");
          ("endpoint", Js.Str schemaPath);
          ("status", Js.Number (status response));
          ("statusText", Js.Str (statusText response));
          ("contentType", nullable contentType);
          ("responseHeaders", Js.Obj (collect_headers (headers response)));
          ("responseBody", Js.Str (Js.substring0 500 responseBody)) ]
    | Throw error =>
        [ ("msg", Js.Str "Failed to read response body for logging");
          ("endpoint", Js.Str schemaPath);
          ("error", error) ]
    end in
  (exists w',
     onResponse response schemaPath w = (Normal Js.Undefined, w')
     /\ loggerCalls (trace w') =
        loggerCalls (trace w) ++
        (if isEmptyResponse response then []
         else match contentType with
              | Some c =>
                  if Js.includes c "application/json" then [] else [record]
              | None => [record]
              end))
  /\ (forall responseBody : string,
        (String.length (Js.substring0 500 responseBody) <= 500)%nat
        /\ (exists rest,
              responseBody = (Js.substring0 500 responseBody ++ rest)%string)
        /\ ((String.length responseBody <= 500)%nat ->
            Js.substring0 500 responseBody = responseBody))
  /\ (forall k v : string,
        In (k, v) (headers response) ->
        Js.toLowerCase k <> "set-cookie" ->
        Js.toLowerCase k <> "__proto__" ->
        Js.obj_get (Js.toLowerCase k) (collect_headers (headers response))
        = option_map Js.Str (headers_get (headers response) k))
  /\ Js.obj_get "__proto__" (collect_headers (headers response)) = None.
Proof.
  cbv zeta. split; [| split; [| split]].
  - rewrite onResponse_run. eexists. split; [reflexivity |].
    simpl trace. rewrite loggerCalls_onResponse, shouldLogResponse_cases.
    f_equal.
    destruct (isEmptyResponse response); [reflexivity |].
    unfold loggedBody, unexpectedContentTypeBody, failedToReadBody,
      MAX_RESPONSE_BODY_LOG_LENGTH.
    destruct (headers_get (headers response) "content-type") as [c |];
      [destruct (Js.includes c "application/json") |]; reflexivity.
  - intros body. split; [| split].
    + rewrite substring0_length. apply Nat.le_min_l.
    + apply substring0_prefix.
    + apply substring0_short.
  - intros k v Hin Hcookie Hproto.
    now destruct (collect_headers_get (headers response) k v Hin Hcookie
                    Hproto).
  - apply collect_headers_proto.
Qed.

(** C8.  A response with status 401 makes the middleware emit
    [USER_LOGGED_OUT], over the sync-engine IPC in a renderer and on the
    event bus otherwise, whatever its content type and body; the emission
    comes first, and all that may follow it is the one log record. *)
Theorem unauthorized_emits_logged_out (response : Response)
    (schemaPath : string) (w : World) :
  status response = 401%Z ->
  exists w' rest,
    onResponse response schemaPath w = (Normal Js.Undefined, w')
    /\ trace w' =
       trace w ++
       match processType w with
       | Renderer => IpcEmit "USER_LOGGED_OUT"
       | _ => EventBusEmit "USER_LOGGED_OUT"
       end :: rest
    /\ (length rest <= 1)%nat
    /\ (forall e, In e rest -> exists body, e = LoggerError body).
Proof.
  intros Hstatus. rewrite onResponse_run, Hstatus. simpl Z.eqb. cbv iota.
  eexists; eexists. split; [reflexivity |]. simpl trace.
  split; [reflexivity |].
  destruct (shouldLogResponse response); simpl.
  - split; [lia |]. intros e [<- | []]. now eexists.
  - split; [lia |]. intros e [].
Qed.

(** C9.  An empty response, one with status 204 or with a [Content-Length]
    of ['0'], adds nothing to the log sink, whatever its content type and
    status. *)
Theorem empty_response_not_logged (response : Response)
    (schemaPath : string) (w : World) :
  status response = 204%Z
  \/ headers_get (headers response) "Content-Length" = Some "0" ->
  exists w',
    onResponse response schemaPath w = (Normal Js.Undefined, w')
    /\ loggerCalls (trace w') = loggerCalls (trace w).
Proof.
  intros Hempty.
  assert (He : isEmptyResponse response = true).
  { unfold isEmptyResponse. destruct Hempty as [-> | ->].
    - reflexivity.
    - simpl. apply orb_true_r. }
  rewrite onResponse_run. eexists. split; [reflexivity |].
  simpl trace. rewrite loggerCalls_onResponse, shouldLogResponse_cases, He.
  apply app_nil_r.
Qed.

End Facts.

(** *** The statements at the responses of the test suite *)

Lemma unauthorized_emits_logged_out_witness :
  status unauthorized = 401%Z
  /\ exists w' rest,
       @onResponse echoLogger unauthorized "/users/refresh" rendererProcess
       = (Normal Js.Undefined, w')
       /\ trace w' =
          trace rendererProcess ++
          match processType rendererProcess with
          | Renderer => IpcEmit "USER_LOGGED_OUT"
          | _ => EventBusEmit "USER_LOGGED_OUT"
          end :: rest
       /\ (length rest <= 1)%nat
       /\ (forall e, In e rest -> exists body, e = LoggerError body).
Proof.
  split; [reflexivity |].
  apply (@unauthorized_emits_logged_out echoLogger unauthorized
           "/users/refresh" rendererProcess).
  reflexivity.
Defined.

Lemma empty_response_not_logged_witness :
  (status zeroLength = 204%Z
   \/ headers_get (headers zeroLength) "Content-Length" = Some "0")
  /\ exists w',
       @onResponse echoLogger zeroLength "/users/refresh" mainProcess
       = (Normal Js.Undefined, w')
       /\ loggerCalls (trace w') = loggerCalls (trace mainProcess).
Proof.
  split; [right; reflexivity |].
  apply (@empty_response_not_logged echoLogger zeroLength
           "/users/refresh" mainProcess).
  right. reflexivity.
Defined.

(** *** Where the claim as first stated fails *)

(** C3 as first stated promises the status code, the status text, the
    content type, the headers and the truncated body in the record of
    every non-empty response that is not JSON.  For the response of the
    test suite whose body cannot be read, the one record that is logged
    holds none of them. *)
Lemma unreadable_body_logs_no_status :
  isEmptyResponse unreadable = false
  /\ isJsonContentType (headers_get (headers unreadable) "content-type")
     = Some false
  /\ exists w' record,
       @onResponse echoLogger unreadable "/users/refresh" mainProcess
       = (Normal Js.Undefined, w')
       /\ loggerCalls (trace w') = [record]
       /\ Js.obj_get "status" record = None
       /\ Js.obj_get "statusText" record = None
       /\ Js.obj_get "contentType" record = None
       /\ Js.obj_get "responseHeaders" record = None
       /\ Js.obj_get "responseBody" record = None.
Proof.
  split; [reflexivity |]. split; [reflexivity |].
  eexists; eexists. split; [vm_compute; reflexivity |].
  repeat split.
Qed.

End HttpClientSpec.

(** ** The test suites of the two units, run on the embedding *)

Module TestSuite.
Import Effects ExceptionWrapper HttpClient Fixtures.

(** [it('should detect JSON parse errors with "JSON" in message')] *)
Example detects_json_parse_error :
  exists w',
    @exceptionWrapper echoLogger fetchHelpers
      testLoggerBody jsonParseError testRetry mainProcess
    = (Normal
         (mkDriveServerWipError UNKNOWN
            (Js.Obj
               [ ("msg", Js.Str "Test request was not successful");
                 ("retry", Js.Number 1);
                 ("exc",
                  Js.Obj
                    [ ("error", Js.Str "JSON Parse Error");
                      ("message", Js.Str "Unexpected end of JSON input");
                      ("hint", Js.Str jsonParseHint) ]) ])),
       w').
Proof. eexists. reflexivity. Qed.

(** [it('should handle non-JSON parse SyntaxErrors as unknown errors')] *)
Example other_syntax_error_is_unknown :
  exists w',
    @exceptionWrapper echoLogger fetchHelpers
      testLoggerBody syntaxError testRetry mainProcess
    = (Normal
         (mkDriveServerWipError UNKNOWN
            (Js.Obj
               [ ("msg", Js.Str "Test request was not successful");
                 ("retry", Js.Number 1);
                 ("exc", syntaxError) ])),
       w').
Proof. eexists. reflexivity. Qed.

(** [it('should handle abort errors')] *)
Example abort_error_is_aborted :
  exists w',
    @exceptionWrapper echoLogger fetchHelpers
      testLoggerBody abortError testRetry mainProcess
    = (Normal
         (mkDriveServerWipError ABORTED
            (Js.Obj
               [ ("msg", Js.Str "Test request was not successful");
                 ("retry", Js.Number 1);
                 ("exc", Js.Str "Aborted") ])),
       w').
Proof. eexists. reflexivity. Qed.

(** A refused connection: NETWORK, and the issue goes over IPC from a
    renderer. *)
Example refused_connection_is_network :
  exists err body,
    @exceptionWrapper echoLogger fetchHelpers
      testLoggerBody connectionRefused testRetry rendererProcess
    = (Normal err,
       mkWorld Renderer
         [ LoggerError body;
           IpcSend "ADD_GENERAL_ISSUE" (@networkErrorIssue fetchHelpers) ])
    /\ code err = NETWORK.
Proof. eexists; eexists. split; reflexivity. Qed.

(** [it('should log non-JSON error responses')] *)
Example logs_html_error_page :
  @onResponse echoLogger htmlErrorPage "/users/refresh" mainProcess
  = (Normal Js.Undefined,
     mkWorld Browser
       [ LoggerError
           [ ("msg", Js.Str "Unexpected response content type");
             ("endpoint", Js.Str "/users/refresh");
             ("status", Js.Number 500);
             ("statusText", Js.Str "Internal Server Error");
             ("contentType", Js.Str "text/html");
             ("responseHeaders",
              Js.Obj [ ("content-type", Js.Str "text/html");
                       ("x-custom-header", Js.Str "test-value") ]);
             ("responseBody",
              Js.Str "<!doctype html><html>Error page</html>") ] ]).
Proof. vm_compute. reflexivity. Qed.

(** [it('should not log JSON responses')] *)
Example does_not_log_json :
  @onResponse echoLogger jsonResponse "/users/refresh" mainProcess
  = (Normal Js.Undefined, mainProcess).
Proof. vm_compute. reflexivity. Qed.

(** [it('should not log empty responses (204)')] *)
Example does_not_log_no_content :
  @onResponse echoLogger noContent "/users/refresh" mainProcess
  = (Normal Js.Undefined, mainProcess).
Proof. vm_compute. reflexivity. Qed.

(** [it('should not log responses with Content-Length: 0')] *)
Example does_not_log_zero_length :
  @onResponse echoLogger zeroLength "/users/refresh" mainProcess
  = (Normal Js.Undefined, mainProcess).
Proof. vm_compute. reflexivity. Qed.

(** [it('should handle errors when reading response body')] *)
Example logs_failed_read :
  @onResponse echoLogger unreadable "/users/refresh" mainProcess
  = (Normal Js.Undefined,
     mkWorld Browser
       [ LoggerError
           [ ("msg", Js.Str "Failed to read response body for logging");
             ("endpoint", Js.Str "/users/refresh");
             ("error",
              Js.ErrorObj Js.Error "Error" "Failed to read body" []) ] ]).
Proof. vm_compute. reflexivity. Qed.

(** Only the first 500 characters of a long body reach the log. *)
Example truncates_long_body :
  String.length
    (Js.substring0 MAX_RESPONSE_BODY_LOG_LENGTH
       (String.concat EmptyString (repeat "0123456789" 60)))
  = 500%nat.
Proof. vm_compute. reflexivity. Qed.

End TestSuite.

(** ** The request middleware *)

Module HttpRequestSpec.
Import Effects HttpClient HttpRequest RequestFixtures Fixtures.
Import JsFacts.

(** *** Setting a header in a header list *)

Lemma same_name_eq (n n' : string) (kv : string * string) :
  Js.toLowerCase n = Js.toLowerCase n' -> same_name n kv = same_name n' kv.
Proof. unfold same_name. now intros ->. Qed.

Lemma filter_same_not_same (n n' : string) (h : Headers) :
  Js.toLowerCase n = Js.toLowerCase n' ->
  filter (same_name n') (filter (fun kv => negb (same_name n kv)) h) = [].
Proof.
  intros Hn. induction h as [| kv h IH]; simpl; [reflexivity |].
  destruct (same_name n kv) eqn:E; simpl; [exact IH |].
  now rewrite <- (same_name_eq n n' kv Hn), E.
Qed.

Lemma filter_other_not_same (n n' : string) (h : Headers) :
  Js.toLowerCase n <> Js.toLowerCase n' ->
  filter (same_name n') (filter (fun kv => negb (same_name n kv)) h)
  = filter (same_name n') h.
Proof.
  intros Hn. induction h as [| kv h IH]; simpl; [reflexivity |].
  destruct (same_name n kv) eqn:E; simpl.
  - assert (E' : same_name n' kv = false).
    { unfold same_name in *. apply String.eqb_eq in E.
      apply String.eqb_neq. congruence. }
    now rewrite E'.
  - destruct (same_name n' kv); now rewrite IH.
Qed.

(** After [set], the name has the one value that was set. *)
Lemma headers_values_set_same (h : Headers) (n n' v : string) :
  Js.toLowerCase n = Js.toLowerCase n' ->
  headers_values (header_list_set h n v) n' = [v].
Proof.
  intros Hn. unfold headers_values.
  induction h as [| kv h IH]; simpl.
  - unfold same_name. simpl. now rewrite Hn, String.eqb_refl.
  - destruct (same_name n kv) eqn:E; simpl.
    + assert (E' : same_name n' (fst kv, v) = true).
      { unfold same_name in *. simpl. now rewrite <- Hn. }
      rewrite E'. simpl. now rewrite (filter_same_not_same n n' h Hn).
    + rewrite <- (same_name_eq n n' kv Hn), E. exact IH.
Qed.

(** After [set], the other names have the values they had. *)
Lemma headers_values_set_other (h : Headers) (n n' v : string) :
  Js.toLowerCase n <> Js.toLowerCase n' ->
  headers_values (header_list_set h n v) n' = headers_values h n'.
Proof.
  intros Hn. unfold headers_values.
  induction h as [| kv h IH]; simpl.
  - unfold same_name. simpl.
    apply String.eqb_neq in Hn. now rewrite Hn.
  - destruct (same_name n kv) eqn:E; simpl.
    + assert (E' : forall x, same_name n' (fst kv, x) = false).
      { intros x. unfold same_name in *. simpl. apply String.eqb_eq in E.
        apply String.eqb_neq. congruence. }
      assert (E'' : same_name n' kv = false).
      { destruct kv as [k x]. apply E'. }
      rewrite E', E''. now rewrite (filter_other_not_same n n' h Hn).
    + destruct (same_name n' kv); simpl; now rewrite IH.
Qed.

Lemma headers_get_set (h : Headers) (n n' v : string) :
  headers_get (header_list_set h n v) n' =
  if same_name n' (n, v) then Some v else headers_get h n'.
Proof.
  unfold headers_get, same_name. simpl.
  destruct (String.eqb (Js.toLowerCase n) (Js.toLowerCase n')) eqn:E.
  - apply String.eqb_eq in E. now rewrite headers_values_set_same.
  - apply String.eqb_neq in E. now rewrite headers_values_set_other.
Qed.

(** *** One [set], then all of them *)

Section Facts.
Context `{RequestEnv}.

Lemma headers_set_well_formed (h : Headers) (key : string)
    (value : Js.Value) :
  well_formed_entry (key, value) = true ->
  headers_set h key (Js.toString value) =
  Normal
    (if forbidden_request_header key (normalize_value (Js.toString value))
     then h
     else header_list_set h key (normalize_value (Js.toString value))).
Proof.
  unfold well_formed_entry, headers_set. simpl. intros Hwf.
  apply andb_true_iff in Hwf. destruct Hwf as [-> ->]. simpl.
  now destruct (forbidden_request_header _ _).
Qed.

Lemma headers_set_get (h h' : Headers) (key : string) (value : Js.Value)
    (name : string) :
  headers_set h key (Js.toString value) = Normal h' ->
  headers_get h' name = get_after_set name (headers_get h name) (key, value).
Proof.
  unfold headers_set, get_after_set. cbv zeta. simpl fst. simpl snd.
  destruct (valid_header_name key); simpl; [| discriminate].
  destruct (valid_header_value _); simpl; [| discriminate].
  destruct (forbidden_request_header _ _); intros [= <-].
  - now rewrite andb_false_r.
  - rewrite andb_true_r. apply headers_get_set.
Qed.

Lemma headers_set_values_other (h h' : Headers) (key value name : string) :
  headers_set h key value = Normal h' ->
  Js.toLowerCase key <> Js.toLowerCase name ->
  headers_values h' name = headers_values h name.
Proof.
  unfold headers_set. cbv zeta. intros Hset Hother.
  destruct (valid_header_name key); simpl in Hset; [| discriminate].
  destruct (valid_header_value (normalize_value value)); simpl in Hset;
    [| discriminate].
  destruct (forbidden_request_header key (normalize_value value));
    injection Hset as <-; [reflexivity |].
  now apply headers_values_set_other.
Qed.

Lemma headers_set_throws (h : Headers) (key : string) (value : Js.Value) :
  well_formed_entry (key, value) = false ->
  exists message,
    headers_set h key (Js.toString value) = Throw (typeError message).
Proof.
  unfold well_formed_entry, headers_set. simpl. intros Hwf.
  destruct (valid_header_name key); simpl in *.
  - rewrite Hwf. simpl. now eexists.
  - now eexists.
Qed.

Lemma set_entries_app (a b : Js.Object) (h : Headers) :
  set_entries (a ++ b) h =
  match set_entries a h with
  | Normal h' => set_entries b h'
  | Throw e => Throw e
  end.
Proof.
  revert h. induction a as [| [k v] a IH]; intros h; simpl; [reflexivity |].
  destruct (headers_set h k (Js.toString v)); [apply IH | reflexivity].
Qed.

(** Well-formed entries are all set. *)
Lemma set_entries_succeeds (entries : Js.Object) (h : Headers) :
  forallb well_formed_entry entries = true ->
  exists h', set_entries entries h = Normal h'.
Proof.
  revert h. induction entries as [| [k v] entries IH]; intros h Hwf; simpl.
  - now exists h.
  - simpl in Hwf. apply andb_true_iff in Hwf. destruct Hwf as [Hkv Hwf].
    rewrite (headers_set_well_formed h k v Hkv). now apply IH.
Qed.

(** What [get] gives once the entries are set: the entries are followed
    one after the other. *)
Lemma set_entries_get (entries : Js.Object) (h h' : Headers)
    (name : string) :
  set_entries entries h = Normal h' ->
  headers_get h' name
  = fold_left (get_after_set name) entries (headers_get h name).
Proof.
  revert h. induction entries as [| [k v] entries IH]; intros h; simpl.
  - now intros [= <-].
  - destruct (headers_set h k (Js.toString v)) as [h1 |] eqn:E;
      [| discriminate].
    intros Hrest. rewrite (IH h1 Hrest).
    now rewrite (headers_set_get h h1 k v name E).
Qed.

(** Entries that do not name a header leave it alone. *)
Lemma fold_get_after_set_other (entries : Js.Object) (name : string)
    (before : option string) :
  (forall key, In key (map fst entries) ->
               Js.toLowerCase key <> Js.toLowerCase name) ->
  fold_left (get_after_set name) entries before = before.
Proof.
  revert before. induction entries as [| [k v] entries IH];
    intros before Hother; simpl; [reflexivity |].
  rewrite IH.
  - unfold get_after_set, same_name. simpl.
    assert (Hk : Js.toLowerCase k <> Js.toLowerCase name)
      by (apply Hother; now left).
    apply String.eqb_neq in Hk. now rewrite Hk.
  - intros key Hin. apply Hother. now right.
Qed.

(** The last entry that names a header decides its value. *)
Lemma fold_get_after_set_last (pre post : Js.Object) (key : string)
    (value : Js.Value) (name : string) (before : option string) :
  Js.toLowerCase key = Js.toLowerCase name ->
  forbidden_request_header key (normalize_value (Js.toString value))
  = false ->
  (forall key', In key' (map fst post) ->
                Js.toLowerCase key' <> Js.toLowerCase name) ->
  fold_left (get_after_set name) (pre ++ (key, value) :: post) before
  = Some (normalize_value (Js.toString value)).
Proof.
  intros Hname Hallowed Hpost. rewrite fold_left_app. simpl.
  rewrite fold_get_after_set_other by exact Hpost.
  unfold get_after_set, same_name. simpl.
  now rewrite Hname, String.eqb_refl, Hallowed.
Qed.

(** Following the entries a second time changes nothing. *)
Lemma fold_get_after_set_absorbs (entries : Js.Object) (name : string)
    (g g' : option string) :
  fold_left (get_after_set name) entries g
  = fold_left (get_after_set name) entries g'
  \/ (fold_left (get_after_set name) entries g = g
      /\ fold_left (get_after_set name) entries g' = g').
Proof.
  revert g g'. induction entries as [| [k v] entries IH]; intros g g'; simpl.
  - now right.
  - assert (Hstep :
      (exists x, forall b, get_after_set name b (k, v) = Some x)
      \/ (forall b, get_after_set name b (k, v) = b)).
    { unfold get_after_set. cbv zeta.
      destruct (same_name name _ && negb _);
        [left; eexists; reflexivity | right; reflexivity]. }
    destruct Hstep as [[x Hx] | Hid].
    + left. now rewrite !Hx.
    + rewrite !Hid. apply IH.
Qed.

Lemma fold_get_after_set_idempotent (entries : Js.Object) (name : string)
    (g : option string) :
  fold_left (get_after_set name) entries
    (fold_left (get_after_set name) entries g)
  = fold_left (get_after_set name) entries g.
Proof.
  destruct (fold_get_after_set_absorbs entries name
              (fold_left (get_after_set name) entries g) g)
    as [Heq | [Hfix _]]; assumption.
Qed.

(** An entry that is not well formed stops the loop with a [TypeError]. *)
Lemma set_entries_throws (entries : Js.Object) (h : Headers) :
  forallb well_formed_entry entries = false ->
  exists message, set_entries entries h = Throw (typeError message).
Proof.
  revert h. induction entries as [| [k v] entries IH]; intros h Hwf;
    simpl in *; [discriminate |].
  destruct (well_formed_entry (k, v)) eqn:E.
  - rewrite (headers_set_well_formed h k v E). apply IH. exact Hwf.
  - destruct (headers_set_throws h k v E) as [message ->]. now eexists.
Qed.

(** One run of the request middleware. *)
Lemma onRequest_run (request : Request) (w : World) :
  onRequest request w =
  match (match processType w with
         | Renderer => invoke_GET_HEADERS
         | _ => getAuthHeaders
         end) with
  | Normal headers =>
      match set_entries (with_workspace headers) (requestHeaders request) with
      | Normal requestHeaders' =>
          (Normal (mkRequest (url request) (method request) requestHeaders'),
           w)
      | Throw e => (Throw e, w)
      end
  | Throw e => (Throw e, w)
  end.
Proof.
  unfold onRequest, getHeaders, bind, process_type, await, ret.
  destruct w as [[] t]; simpl;
    match goal with
    | |- context [match ?c with Normal _ => _ | Throw _ => _ end] =>
        destruct c as [headers | e]; [| reflexivity]
    end;
    destruct (set_entries _ _); reflexivity.
Qed.

Lemma onRequest_of_source (request : Request) (w : World) :
  onRequest request w =
  match headers_of_process (processType w) with
  | Normal headers =>
      match set_entries (with_workspace headers) (requestHeaders request) with
      | Normal requestHeaders' =>
          (Normal (mkRequest (url request) (method request) requestHeaders'),
           w)
      | Throw e => (Throw e, w)
      end
  | Throw e => (Throw e, w)
  end.
Proof. apply onRequest_run. Qed.

(** When the object has each key once, the assigned property is followed
    only by other keys. *)
Lemma obj_set_split (k : string) (v : Js.Value) (o : Js.Object) :
  NoDup (map fst o) ->
  exists pre post,
    Js.obj_set k v o = pre ++ (k, v) :: post
    /\ (forall k', In k' (map fst post) -> k' <> k /\ In k' (map fst o)).
Proof.
  induction o as [| [k0 v0] o IH]; simpl; intros Hnd.
  - exists [], []. split; [reflexivity | intros k' []].
  - inversion Hnd as [| ? ? Hk0 Hnd']; subst.
    destruct (String.eqb k k0) eqn:E.
    + apply String.eqb_eq in E. subst k0.
      exists [], o. split; [reflexivity |].
      intros k' Hin. split; [| now right].
      intros ->. contradiction.
    + destruct (IH Hnd') as [pre [post [Hset Hpost]]].
      exists ((k0, v0) :: pre), post. split.
      * simpl. now rewrite Hset.
      * intros k' Hin. destruct (Hpost k' Hin) as [Hne Hin'].
        split; [exact Hne | now right].
Qed.

(** On an object without the property, the assignment of the token adds
    what [getWorkspaceHeader] builds. *)
Lemma with_workspace_appends (headers : Js.Object) (workspaceToken : string) :
  config_workspaceToken = Some workspaceToken ->
  workspaceToken <> EmptyString ->
  Js.obj_get "x-internxt-workspace" headers = None ->
  with_workspace headers = headers ++ getWorkspaceHeader workspaceToken.
Proof.
  intros Htoken Hne Hnone. unfold with_workspace, getWorkspaceHeader.
  rewrite Htoken. apply String.eqb_neq in Hne. rewrite Hne.
  induction headers as [| [k v] headers IH]; [reflexivity |].
  change (Js.obj_get "x-internxt-workspace" ((k, v) :: headers))
    with (if String.eqb "x-internxt-workspace" k then Some v
          else Js.obj_get "x-internxt-workspace" headers) in Hnone.
  change (Js.obj_set "x-internxt-workspace" (Js.Str workspaceToken)
            ((k, v) :: headers))
    with (if String.eqb "x-internxt-workspace" k
          then ("x-internxt-workspace", Js.Str workspaceToken) :: headers
          else (k, v) :: Js.obj_set "x-internxt-workspace"
                           (Js.Str workspaceToken) headers).
  destruct (String.eqb "x-internxt-workspace" k); [discriminate |].
  simpl. f_equal. now apply IH.
Qed.

(** X1.  When the headers cannot be had, because the IPC call rejects in
    a renderer or [getAuthHeaders] throws elsewhere, [onRequest] fails
    with that very error, sets no header and leaves the trace alone. *)
Theorem onRequest_propagates_header_failure (request : Request)
    (w : World) (e : Js.Value) :
  headers_of_process (processType w) = Throw e ->
  onRequest request w = (Throw e, w).
Proof. intros Hsrc. now rewrite onRequest_of_source, Hsrc. Qed.

(** X2.  When the entries of the headers object are well formed and no
    two keys are the same name up to letter case, [onRequest] succeeds,
    leaves the URL and the method alone, and every entry that is not a
    forbidden request-header is on the request with its normalised value,
    in place of whatever the request had under that name. *)
Theorem onRequest_sets_each_header (request : Request) (w : World)
    (headers : Js.Object) :
  headers_of_process (processType w) = Normal headers ->
  forallb well_formed_entry (with_workspace headers) = true ->
  NoDup (map (fun kv => Js.toLowerCase (fst kv)) (with_workspace headers)) ->
  exists request',
    onRequest request w = (Normal request', w)
    /\ url request' = url request
    /\ method request' = method request
    /\ forall key value,
         In (key, value) (with_workspace headers) ->
         forbidden_request_header key (normalize_value (Js.toString value))
         = false ->
         headers_get (requestHeaders request') key
         = Some (normalize_value (Js.toString value)).
Proof.
  intros Hsrc Hwf Hnd. rewrite onRequest_of_source, Hsrc.
  destruct (set_entries_succeeds _ (requestHeaders request) Hwf)
    as [h' Hset].
  rewrite Hset. eexists. split; [reflexivity |].
  split; [reflexivity |]. split; [reflexivity |].
  intros key value Hin Hallowed. simpl requestHeaders.
  rewrite (set_entries_get _ _ _ key Hset).
  destruct (in_split _ _ Hin) as [pre [post Hsplit]].
  rewrite Hsplit in Hnd |- *.
  apply fold_get_after_set_last; [reflexivity | exact Hallowed |].
  intros key' Hin' Heq.
  rewrite map_app in Hnd. simpl in Hnd.
  apply NoDup_remove_2 in Hnd. apply Hnd.
  apply in_or_app. right. rewrite <- Heq.
  apply in_map_iff in Hin'. destruct Hin' as [[k0 v0] [Hk0 Hin0]].
  simpl in Hk0. subst k0.
  apply in_map_iff. now exists (key', v0).
Qed.

(** The last entry that names a header is the one on the request. *)
Lemma onRequest_last_entry (request : Request) (w : World)
    (headers pre post : Js.Object) (key : string) (value : Js.Value) :
  headers_of_process (processType w) = Normal headers ->
  forallb well_formed_entry (with_workspace headers) = true ->
  with_workspace headers = pre ++ (key, value) :: post ->
  (forall key', In key' (map fst post) ->
                Js.toLowerCase key' <> Js.toLowerCase key) ->
  forbidden_request_header key (normalize_value (Js.toString value))
  = false ->
  exists request',
    onRequest request w = (Normal request', w)
    /\ headers_get (requestHeaders request') key
       = Some (normalize_value (Js.toString value))
    /\ headers_values (requestHeaders request') key
       = [normalize_value (Js.toString value)].
Proof.
  intros Hsrc Hwf Hsplit Hpost Hallowed.
  rewrite onRequest_of_source, Hsrc.
  destruct (set_entries_succeeds _ (requestHeaders request) Hwf)
    as [h' Hset].
  rewrite Hset. eexists. split; [reflexivity |]. simpl requestHeaders.
  assert (Hget : headers_get h' key
                 = Some (normalize_value (Js.toString value))).
  { rewrite (set_entries_get _ _ _ key Hset), Hsplit.
    now apply fold_get_after_set_last. }
  split; [exact Hget |].
  clear Hget. revert Hset. rewrite Hsplit, set_entries_app.
  destruct (set_entries pre (requestHeaders request)) as [h1 |];
    [| discriminate].
  simpl.
  assert (Hkv : well_formed_entry (key, value) = true).
  { rewrite Hsplit, forallb_app in Hwf. simpl in Hwf.
    apply andb_true_iff in Hwf. destruct Hwf as [_ Hwf].
    apply andb_true_iff in Hwf. now destruct Hwf. }
  rewrite (headers_set_well_formed h1 key value Hkv), Hallowed.
  set (h2 := header_list_set h1 key _).
  assert (Hh2 : headers_values h2 key
                = [normalize_value (Js.toString value)])
    by (apply headers_values_set_same; reflexivity).
  clearbody h2. clear Hsplit Hwf Hkv.
  revert h2 Hh2. induction post as [| [k0 v0] post IH]; intros h2 Hh2; simpl.
  - now intros [= <-].
  - destruct (headers_set h2 k0 (Js.toString v0)) as [h3 |] eqn:E;
      [| discriminate].
    apply IH.
    + intros key' Hin. apply Hpost. now right.
    + rewrite (headers_set_values_other h2 h3 k0 (Js.toString v0) key E);
        [exact Hh2 |].
      apply Hpost. now left.
Qed.

(** X3.  When two keys of the headers object are the same name up to
    letter case, the later one decides: the request carries the value of
    the last entry that names the header. *)
Theorem onRequest_last_spelling_wins (request : Request) (w : World)
    (headers pre post : Js.Object) (key : string) (value : Js.Value) :
  headers_of_process (processType w) = Normal headers ->
  forallb well_formed_entry (with_workspace headers) = true ->
  with_workspace headers = pre ++ (key, value) :: post ->
  (forall key', In key' (map fst post) ->
                Js.toLowerCase key' <> Js.toLowerCase key) ->
  forbidden_request_header key (normalize_value (Js.toString value))
  = false ->
  exists request',
    onRequest request w = (Normal request', w)
    /\ headers_get (requestHeaders request') key
       = Some (normalize_value (Js.toString value))
    /\ headers_values (requestHeaders request') key
       = [normalize_value (Js.toString value)].
Proof.
  intros Hsrc Hwf Hsplit Hpost Hallowed.
  now apply (onRequest_last_entry request w headers pre post key value).
Qed.

(** X4.  [onRequest] touches no header but those that the headers object
    names: under every other name, up to letter case, the request gives
    what it gave before. *)
Theorem onRequest_keeps_other_headers (request : Request) (w : World)
    (headers : Js.Object) :
  headers_of_process (processType w) = Normal headers ->
  forallb well_formed_entry (with_workspace headers) = true ->
  exists request',
    onRequest request w = (Normal request', w)
    /\ forall name,
         (forall key, In key (map fst (with_workspace headers)) ->
                      Js.toLowerCase key <> Js.toLowerCase name) ->
         headers_get (requestHeaders request') name
         = headers_get (requestHeaders request) name.
Proof.
  intros Hsrc Hwf. rewrite onRequest_of_source, Hsrc.
  destruct (set_entries_succeeds _ (requestHeaders request) Hwf)
    as [h' Hset].
  rewrite Hset. eexists. split; [reflexivity |].
  intros name Hother. simpl requestHeaders.
  rewrite (set_entries_get _ _ _ name Hset).
  now apply fold_get_after_set_other.
Qed.

(** X5.  With a workspace token that is not empty, the request leaves
    [onRequest] with the token, normalised, as its one
    [x-internxt-workspace] header, also when the headers object had that
    property already; the object must not spell the name in another
    letter case, and the platform must not forbid the header. *)
Theorem onRequest_sets_workspace_token (request : Request) (w : World)
    (headers : Js.Object) (workspaceToken : string) :
  headers_of_process (processType w) = Normal headers ->
  config_workspaceToken = Some workspaceToken ->
  workspaceToken <> EmptyString ->
  forallb well_formed_entry (with_workspace headers) = true ->
  NoDup (map fst headers) ->
  (forall key, In key (map fst headers) ->
               Js.toLowerCase key = "x-internxt-workspace" ->
               key = "x-internxt-workspace") ->
  forbidden_request_header "x-internxt-workspace"
    (normalize_value workspaceToken) = false ->
  exists request',
    onRequest request w = (Normal request', w)
    /\ headers_get (requestHeaders request') "x-internxt-workspace"
       = Some (normalize_value workspaceToken)
    /\ headers_values (requestHeaders request') "x-internxt-workspace"
       = [normalize_value workspaceToken].
Proof.
  intros Hsrc Htoken Hne Hwf Hnd Hspelling Hallowed.
  assert (Hww : with_workspace headers
                = Js.obj_set "x-internxt-workspace"
                    (Js.Str workspaceToken) headers).
  { unfold with_workspace. rewrite Htoken.
    apply String.eqb_neq in Hne. now rewrite Hne. }
  destruct (obj_set_split "x-internxt-workspace" (Js.Str workspaceToken)
              headers Hnd) as [pre [post [Hsplit Hpost]]].
  apply (onRequest_last_entry request w headers pre post
           "x-internxt-workspace" (Js.Str workspaceToken)); try assumption.
  - now rewrite Hww.
  - intros key' Hin Heq. destruct (Hpost key' Hin) as [Hdiff Hin'].
    apply Hdiff. apply Hspelling; [exact Hin' | exact Heq].
Qed.

(** X6.  Without a workspace token, undefined or the empty string, the
    middleware adds no [x-internxt-workspace] header of its own: unless
    the headers object names it, the request keeps what it had under that
    name. *)
Theorem onRequest_without_workspace_token (request : Request) (w : World)
    (headers : Js.Object) :
  headers_of_process (processType w) = Normal headers ->
  config_workspaceToken = None
  \/ config_workspaceToken = Some EmptyString ->
  forallb well_formed_entry headers = true ->
  (forall key, In key (map fst headers) ->
               Js.toLowerCase key <> "x-internxt-workspace") ->
  exists request',
    onRequest request w = (Normal request', w)
    /\ headers_get (requestHeaders request') "x-internxt-workspace"
       = headers_get (requestHeaders request) "x-internxt-workspace".
Proof.
  intros Hsrc Htoken Hwf Hother.
  assert (Hww : with_workspace headers = headers).
  { unfold with_workspace. now destruct Htoken as [-> | ->]. }
  rewrite onRequest_of_source, Hsrc, Hww.
  destruct (set_entries_succeeds _ (requestHeaders request) Hwf)
    as [h' Hset].
  rewrite Hset. eexists. split; [reflexivity |]. simpl requestHeaders.
  rewrite (set_entries_get _ _ _ "x-internxt-workspace" Hset).
  now apply fold_get_after_set_other.
Qed.

(** X7.  When an entry of the headers object is not well formed, a key
    that is no header name or a value with a line break or a NUL in it,
    [onRequest] fails with a [TypeError] and returns no request. *)
Theorem onRequest_rejects_malformed_entry (request : Request) (w : World)
    (headers : Js.Object) :
  headers_of_process (processType w) = Normal headers ->
  forallb well_formed_entry (with_workspace headers) = false ->
  exists message,
    onRequest request w = (Throw (typeError message), w).
Proof.
  intros Hsrc Hwf. rewrite onRequest_of_source, Hsrc.
  destruct (set_entries_throws _ (requestHeaders request) Hwf)
    as [message ->].
  now exists message.
Qed.

(** X8.  Running the middleware again on the request it returned changes
    no header: under every name the second result gives what the first
    gave. *)
Theorem onRequest_idempotent (request : Request) (w : World)
    (headers : Js.Object) :
  headers_of_process (processType w) = Normal headers ->
  forallb well_formed_entry (with_workspace headers) = true ->
  exists once twice,
    onRequest request w = (Normal once, w)
    /\ onRequest once w = (Normal twice, w)
    /\ forall name,
         headers_get (requestHeaders twice) name
         = headers_get (requestHeaders once) name.
Proof.
  intros Hsrc Hwf.
  destruct (set_entries_succeeds _ (requestHeaders request) Hwf)
    as [h1 Hset1].
  destruct (set_entries_succeeds _ h1 Hwf) as [h2 Hset2].
  exists (mkRequest (url request) (method request) h1),
         (mkRequest (url request) (method request) h2).
  split; [now rewrite onRequest_of_source, Hsrc, Hset1 |].
  split.
  { rewrite onRequest_of_source, Hsrc. simpl requestHeaders.
    now rewrite Hset2. }
  intros name. simpl requestHeaders.
  rewrite (set_entries_get _ _ _ name Hset2),
    (set_entries_get _ _ _ name Hset1).
  apply fold_get_after_set_idempotent.
Qed.

End Facts.

(** *** The statements at concrete requests *)

Lemma onRequest_propagates_header_failure_witness :
  @headers_of_process signedOutEnv (processType rendererProcess)
  = Throw (Js.ErrorObj Js.Error "Error" "No token" [])
  /\ @onRequest signedOutEnv getFiles rendererProcess
     = (Throw (Js.ErrorObj Js.Error "Error" "No token" []), rendererProcess).
Proof.
  split; [reflexivity |].
  apply (@onRequest_propagates_header_failure signedOutEnv getFiles
           rendererProcess).
  reflexivity.
Defined.

Lemma onRequest_sets_each_header_witness :
  exists request',
    @onRequest workspaceEnv getFiles mainProcess = (Normal request', mainProcess)
    /\ url request' = url getFiles
    /\ method request' = method getFiles
    /\ forall key value,
         In (key, value)
            (@with_workspace workspaceEnv
               [ ("Authorization", Js.Str "Bearer token");
                 ("internxt-client", Js.Str "drive-desktop") ]) ->
         @forbidden_request_header workspaceEnv key
           (normalize_value (Js.toString value)) = false ->
         headers_get (requestHeaders request') key
         = Some (normalize_value (Js.toString value)).
Proof.
  apply (@onRequest_sets_each_header workspaceEnv getFiles mainProcess
           [ ("Authorization", Js.Str "Bearer token");
             ("internxt-client", Js.Str "drive-desktop") ]).
  - reflexivity.
  - reflexivity.
  - vm_compute.
    repeat (constructor; [simpl; intuition discriminate |]).
    constructor.
Defined.

Lemma onRequest_last_spelling_wins_witness :
  exists request',
    @onRequest clashEnv getFiles mainProcess = (Normal request', mainProcess)
    /\ headers_get (requestHeaders request') "authorization"
       = Some (normalize_value (Js.toString (Js.Str "  Bearer second ")))
    /\ headers_values (requestHeaders request') "authorization"
       = [normalize_value (Js.toString (Js.Str "  Bearer second "))].
Proof.
  apply (@onRequest_last_spelling_wins clashEnv getFiles mainProcess
           [ ("Authorization", Js.Str "Bearer first");
             ("authorization", Js.Str "  Bearer second ") ]
           [ ("Authorization", Js.Str "Bearer first") ] []
           "authorization" (Js.Str "  Bearer second ")).
  - reflexivity.
  - reflexivity.
  - reflexivity.
  - intros key' [].
  - reflexivity.
Defined.

Lemma onRequest_keeps_other_headers_witness :
  exists request',
    @onRequest workspaceEnv getFiles mainProcess = (Normal request', mainProcess)
    /\ forall name,
         (forall key,
            In key
               (map fst
                  (@with_workspace workspaceEnv
                     [ ("Authorization", Js.Str "Bearer token");
                       ("internxt-client", Js.Str "drive-desktop") ])) ->
            Js.toLowerCase key <> Js.toLowerCase name) ->
         headers_get (requestHeaders request') name
         = headers_get (requestHeaders getFiles) name.
Proof.
  apply (@onRequest_keeps_other_headers workspaceEnv getFiles mainProcess
           [ ("Authorization", Js.Str "Bearer token");
             ("internxt-client", Js.Str "drive-desktop") ]);
    reflexivity.
Defined.

Lemma onRequest_sets_workspace_token_witness :
  exists request',
    @onRequest workspaceEnv getFiles mainProcess = (Normal request', mainProcess)
    /\ headers_get (requestHeaders request') "x-internxt-workspace"
       = Some (normalize_value "workspace-token")
    /\ headers_values (requestHeaders request') "x-internxt-workspace"
       = [normalize_value "workspace-token"].
Proof.
  apply (@onRequest_sets_workspace_token workspaceEnv getFiles mainProcess
           [ ("Authorization", Js.Str "Bearer token");
             ("internxt-client", Js.Str "drive-desktop") ]
           "workspace-token").
  - reflexivity.
  - reflexivity.
  - discriminate.
  - reflexivity.
  - repeat (constructor; [simpl; intuition discriminate |]). constructor.
  - simpl. intros key [<- | [<- | []]]; discriminate.
  - reflexivity.
Defined.

Lemma onRequest_without_workspace_token_witness :
  exists request',
    @onRequest personalEnv getFiles mainProcess = (Normal request', mainProcess)
    /\ headers_get (requestHeaders request') "x-internxt-workspace"
       = headers_get (requestHeaders getFiles) "x-internxt-workspace".
Proof.
  apply (@onRequest_without_workspace_token personalEnv getFiles mainProcess
           [ ("Authorization", Js.Str "Bearer token");
             ("internxt-client", Js.Str "drive-desktop") ]).
  - reflexivity.
  - left. reflexivity.
  - reflexivity.
  - simpl. intros key [<- | [<- | []]]; discriminate.
Defined.

Lemma onRequest_rejects_malformed_entry_witness :
  exists message,
    @onRequest brokenEnv getFiles mainProcess
    = (Throw (typeError message), mainProcess).
Proof.
  apply (@onRequest_rejects_malformed_entry brokenEnv getFiles mainProcess
           [ ("Authorization", Js.Str "Bearer token");
             ("bad name", Js.Str "x") ]);
    reflexivity.
Defined.

Lemma onRequest_idempotent_witness :
  exists once twice,
    @onRequest workspaceEnv getFiles mainProcess = (Normal once, mainProcess)
    /\ @onRequest workspaceEnv once mainProcess = (Normal twice, mainProcess)
    /\ forall name,
         headers_get (requestHeaders twice) name
         = headers_get (requestHeaders once) name.
Proof.
  apply (@onRequest_idempotent workspaceEnv getFiles mainProcess
           [ ("Authorization", Js.Str "Bearer token");
             ("internxt-client", Js.Str "drive-desktop") ]);
    reflexivity.
Defined.

End HttpRequestSpec.

(** ** More on the error classifier *)

Module ExceptionWrapperMore.
Import Effects ExceptionWrapper Fixtures.
Import JsFacts EffectsFacts ExceptionWrapperSpec.

Section Facts.
Context `{Logger} `{ErrorHelpers}.

(** X9.  The logged body keeps every property of [loggerBody] other than
    [msg], [retry] and [exc] as it was; those three are overwritten, also
    when [loggerBody] brings a [retry] or an [exc] of its own. *)
Theorem logged_body_keeps_attributes (loggerBody : TLoggerBody)
    (exc : Js.Value) (retry : Z) (w : World) :
  exists err w' body,
    exceptionWrapper loggerBody exc retry w = (Normal err, w')
    /\ loggerCalls (trace w') = loggerCalls (trace w) ++ [body]
    /\ (forall key,
          key <> "msg" -> key <> "retry" -> key <> "exc" ->
          Js.obj_get key body = Js.obj_get key (attributes loggerBody))
    /\ Js.obj_get "retry" body = Some (Js.Number retry)
    /\ Js.obj_get "exc" body = Some (excMessage (parseException exc)).
Proof.
  rewrite exceptionWrapper_run. cbv zeta.
  eexists; eexists; eexists. split; [reflexivity |]. simpl trace.
  split.
  { rewrite loggerCalls_app. f_equal. simpl.
    destruct (isNetworkConnectivityError exc); [| reflexivity].
    destruct (processType w); reflexivity. }
  destruct (errorBody_fields loggerBody retry
              (excMessage (parseException exc))) as [He [Hr _]].
  split; [| split; assumption].
  intros key Hmsg Hretry Hexc. unfold errorBody.
  rewrite !obj_get_set_ne by assumption.
  unfold spread. simpl.
  apply String.eqb_neq in Hmsg. now rewrite Hmsg.
Qed.

(** X10.  Two of the four substring tests of [isJsonParseException]
    decide alone: a failure is recognised exactly when it is a
    [SyntaxError] whose message contains ['Unexpected token'] or
    ['JSON']; the tests for ['Unexpected end of JSON'] and
    ['Unexpected string in JSON'] never change the answer. *)
Theorem json_recognition_needs_two_tests (exc : Js.Value) :
  isJsonParseException exc =
  Js.instanceof_SyntaxError exc
  && (Js.includes (Js.message_of exc) "Unexpected token"
      || Js.includes (Js.message_of exc) "JSON").
Proof.
  destruct exc as [| | b | n | s | props | ctor name message props];
    try reflexivity.
  apply isJsonParseException_two_tests.
Qed.

End Facts.

End ExceptionWrapperMore.

(** ** More on the response middleware *)

Module HttpClientMore.
Import Effects HttpClient Fixtures.
Import JsFacts EffectsFacts HttpClientSpec.

(** *** The keys of [responseHeaders] *)

Lemma keys_obj_set (k : string) (v : Js.Value) (o : Js.Object) (k' : string) :
  In k' (map fst (Js.obj_set k v o)) <-> k' = k \/ In k' (map fst o).
Proof.
  induction o as [| [k0 v0] o IH]; simpl.
  - intuition.
  - destruct (String.eqb k k0) eqn:E; simpl.
    + apply String.eqb_eq in E. subst k0. intuition.
    + rewrite IH. intuition.
Qed.

Lemma NoDup_obj_set (k : string) (v : Js.Value) (o : Js.Object) :
  NoDup (map fst o) -> NoDup (map fst (Js.obj_set k v o)).
Proof.
  induction o as [| [k0 v0] o IH]; simpl; intros Hnd.
  - constructor; [intros [] | constructor].
  - inversion Hnd as [| ? ? Hk0 Hnd']; subst.
    destruct (String.eqb k k0) eqn:E; simpl.
    + apply String.eqb_eq in E. subst k0. now constructor.
    + constructor; [| now apply IH].
      rewrite keys_obj_set. intros [-> | Hin]; [| contradiction].
      now rewrite String.eqb_refl in E.
Qed.

Lemma keys_assign_header (o : Js.Object) (kv : string * string)
    (k : string) :
  In k (map fst (assign_header o kv)) <->
  (k = fst kv /\ k <> "__proto__") \/ In k (map fst o).
Proof.
  unfold assign_header.
  destruct (String.eqb (fst kv) "__proto__") eqn:E.
  - apply String.eqb_eq in E. split; [now right |].
    intros [[Hk Hne] | Hin]; [| exact Hin]. congruence.
  - apply String.eqb_neq in E. rewrite keys_obj_set. split.
    + intros [-> | Hin]; [left; now split | now right].
    + intros [[-> _] | Hin]; [now left | now right].
Qed.

Lemma keys_fold_set (entries : list (string * string)) (o : Js.Object)
    (k : string) :
  In k (map fst (fold_left assign_header entries o))
  <-> (In k (map fst entries) /\ k <> "__proto__") \/ In k (map fst o).
Proof.
  revert o. induction entries as [| [k0 v0] entries IH]; intros o; simpl.
  - intuition.
  - rewrite IH, keys_assign_header. simpl. intuition.
Qed.

Lemma NoDup_fold_set (entries : list (string * string)) (o : Js.Object) :
  NoDup (map fst o) ->
  NoDup (map fst (fold_left assign_header entries o)).
Proof.
  revert o. induction entries as [| [k0 v0] entries IH]; intros o Hnd; simpl.
  - exact Hnd.
  - apply IH. unfold assign_header. simpl.
    destruct (String.eqb k0 "__proto__"); [exact Hnd |].
    now apply NoDup_obj_set.
Qed.

Lemma keys_headers_entries (h : Headers) (k : string) :
  In k (map fst (headers_entries h)) <-> In k (headers_names h).
Proof.
  unfold headers_entries. rewrite in_map_iff. split.
  - intros [[k' v] [Hk Hin]]. simpl in Hk. subst k'.
    apply in_flat_map in Hin. destruct Hin as [n [Hn Hin]].
    destruct (String.eqb n "set-cookie").
    + apply in_map_iff in Hin. destruct Hin as [x [[= <- _] _]]. exact Hn.
    + destruct Hin as [[= <- _] | []]. exact Hn.
  - intros Hn.
    destruct (proj1 (In_headers_names h k) Hn) as [k0 [v0 [Hin ->]]].
    pose proof (headers_values_present h k0 v0 Hin) as Hne.
    rewrite <- headers_values_lower in Hne.
    destruct (headers_values h (Js.toLowerCase k0)) as [| x xs] eqn:Hv;
      [contradiction |].
    exists (Js.toLowerCase k0,
            if String.eqb (Js.toLowerCase k0) "set-cookie"
            then x else String.concat ", " (x :: xs)).
    split; [reflexivity |].
    apply in_flat_map. exists (Js.toLowerCase k0). split; [exact Hn |].
    rewrite Hv.
    destruct (String.eqb (Js.toLowerCase k0) "set-cookie"); now left.
Qed.

(** X11.  The logged [responseHeaders] object has one property for each
    header name of the response other than [__proto__], under the
    lower-cased name, and no other property; a header named [__proto__]
    leaves none, since the assignment reaches the setter of
    [Object.prototype]. *)
Theorem responseHeaders_keys (h : Headers) :
  NoDup (map fst (collect_headers h))
  /\ (forall key,
        In key (map fst (collect_headers h)) <->
        key <> "__proto__"
        /\ exists name value, In (name, value) h /\ key = Js.toLowerCase name)
  /\ Js.obj_get "__proto__" (collect_headers h) = None.
Proof.
  split; [| split].
  - unfold collect_headers. apply NoDup_fold_set. constructor.
  - intros key. unfold collect_headers.
    rewrite keys_fold_set, keys_headers_entries, In_headers_names.
    simpl. intuition.
  - apply collect_headers_proto.
Qed.

(** X12.  Of several [Set-Cookie] headers, which [forEach] visits one by
    one, only the last is left in the logged [responseHeaders]. *)
Theorem set_cookie_keeps_last (h : Headers) (earlier : list string)
    (last : string) :
  headers_values h "set-cookie" = earlier ++ [last] ->
  Js.obj_get "set-cookie" (collect_headers h) = Some (Js.Str last).
Proof.
  intros Hvalues.
  assert (Hn : In "set-cookie" (headers_names h)).
  { unfold headers_values in Hvalues.
    assert (Hin : In last (map snd (filter (same_name "set-cookie") h)))
      by (rewrite Hvalues; apply in_or_app; right; now left).
    apply in_map_iff in Hin. destruct Hin as [[k v] [_ Hin]].
    apply filter_In in Hin. destruct Hin as [Hin Hsame].
    apply In_headers_names. exists k, v. split; [exact Hin |].
    unfold same_name in Hsame. simpl in Hsame.
    apply String.eqb_eq in Hsame. now rewrite Hsame. }
  destruct (in_split _ _ Hn) as [l1 [l2 Hsplit]].
  pose proof (NoDup_headers_names h) as Hnd. rewrite Hsplit in Hnd.
  apply NoDup_remove_2 in Hnd.
  unfold collect_headers, headers_entries.
  set (f := fun n0 : string =>
              if String.eqb n0 "set-cookie"
              then map (fun v0 => (n0, v0)) (headers_values h n0)
              else [(n0, String.concat ", " (headers_values h n0))]).
  assert (Hkeys : forall m x, In x (map fst (f m)) -> x = m).
  { intros m x. unfold f. destruct (String.eqb m "set-cookie"); simpl.
    - rewrite map_map. simpl. rewrite in_map_iff.
      intros [y [Hy _]]. now symmetry.
    - intros [Hx | []]. now symmetry. }
  rewrite Hsplit, flat_map_app. simpl flat_map.
  assert (Hfn : f "set-cookie"
                = map (fun v0 => ("set-cookie", v0)) earlier
                  ++ [("set-cookie", last)]).
  { unfold f. simpl String.eqb. cbv iota. rewrite Hvalues.
    now rewrite map_app. }
  rewrite Hfn, <- !app_assoc, app_assoc. simpl app.
  apply fold_set_last; [discriminate |].
  rewrite in_map_iff. intros [[x y] [Hx Hxy]]. simpl in Hx. subst x.
  apply in_flat_map in Hxy. destruct Hxy as [m [Hm Hfm]].
  assert ("set-cookie" = m).
  { apply Hkeys. apply in_map_iff. now exists ("set-cookie", y). }
  subst m. apply Hnd. apply in_or_app. now right.
Qed.

(** *** Header names that differ in letter case only *)

Lemma headers_values_folded (h : Headers) (name : string) :
  headers_values (map (fun kv => (Js.toLowerCase (fst kv), snd kv)) h) name
  = headers_values h name.
Proof.
  unfold headers_values. induction h as [| [k v] h IH]; [reflexivity |].
  cbn [map filter fst snd].
  assert (Hsame : same_name name (Js.toLowerCase k, v)
                  = same_name name (k, v)).
  { unfold same_name. simpl. now rewrite toLowerCase_idempotent. }
  rewrite Hsame.
  destruct (same_name name (k, v)); cbn [map snd]; [f_equal |]; exact IH.
Qed.

Lemma headers_names_folded (h : Headers) :
  headers_names (map (fun kv => (Js.toLowerCase (fst kv), snd kv)) h)
  = headers_names h.
Proof.
  unfold headers_names. rewrite map_map. simpl.
  f_equal. f_equal. apply map_ext. intros kv.
  apply toLowerCase_idempotent.
Qed.

(** The functions of the middleware see a header list through its
    lower-cased names only. *)
Lemma headers_values_same_fold (h h' : Headers) (name : string) :
  map (fun kv => (Js.toLowerCase (fst kv), snd kv)) h
  = map (fun kv => (Js.toLowerCase (fst kv), snd kv)) h' ->
  headers_values h name = headers_values h' name.
Proof.
  intros Hfold.
  now rewrite <- (headers_values_folded h), <- (headers_values_folded h'),
    Hfold.
Qed.

Lemma headers_get_same_fold (h h' : Headers) (name : string) :
  map (fun kv => (Js.toLowerCase (fst kv), snd kv)) h
  = map (fun kv => (Js.toLowerCase (fst kv), snd kv)) h' ->
  headers_get h name = headers_get h' name.
Proof.
  intros Hfold. unfold headers_get.
  now rewrite (headers_values_same_fold h h' name Hfold).
Qed.

Lemma collect_headers_same_fold (h h' : Headers) :
  map (fun kv => (Js.toLowerCase (fst kv), snd kv)) h
  = map (fun kv => (Js.toLowerCase (fst kv), snd kv)) h' ->
  collect_headers h = collect_headers h'.
Proof.
  intros Hfold. unfold collect_headers, headers_entries. f_equal.
  assert (Hnames : headers_names h = headers_names h')
    by (now rewrite <- (headers_names_folded h),
          <- (headers_names_folded h'), Hfold).
  rewrite Hnames. apply flat_map_ext. intros n.
  now rewrite (headers_values_same_fold h h' n Hfold).
Qed.

Section Facts.
Context `{Logger}.

(** X13.  The middleware does not see the letter case of header names:
    two responses that differ in nothing else make it do the same, effect
    for effect. *)
Theorem onResponse_ignores_header_case (response response' : Response)
    (schemaPath : string) (w : World) :
  status response = status response' ->
  statusText response = statusText response' ->
  text response = text response' ->
  map (fun kv => (Js.toLowerCase (fst kv), snd kv)) (headers response)
  = map (fun kv => (Js.toLowerCase (fst kv), snd kv)) (headers response') ->
  onResponse response schemaPath w = onResponse response' schemaPath w.
Proof.
  intros Hstatus Htext Hbody Hfold.
  rewrite !onResponse_run.
  assert (Hlog : shouldLogResponse response = shouldLogResponse response').
  { unfold shouldLogResponse, isEmptyResponse.
    now rewrite Hstatus,
      (headers_get_same_fold _ _ "Content-Length" Hfold),
      (headers_get_same_fold _ _ "content-type" Hfold). }
  assert (Hrecord : loggedBody response schemaPath
                    = loggedBody response' schemaPath).
  { unfold loggedBody, unexpectedContentTypeBody.
    now rewrite Hbody, Hstatus, Htext,
      (headers_get_same_fold _ _ "content-type" Hfold),
      (collect_headers_same_fold _ _ Hfold). }
  now rewrite Hstatus, Hlog, Hrecord.
Qed.

(** X14.  Only status 401 ends the session: for every other status the
    middleware emits no [USER_LOGGED_OUT], on neither channel; all it may
    add to the trace is its one log record. *)
Theorem only_unauthorized_emits_logged_out (response : Response)
    (schemaPath : string) (w : World) :
  status response <> 401%Z ->
  exists w' added,
    onResponse response schemaPath w = (Normal Js.Undefined, w')
    /\ trace w' = trace w ++ added
    /\ (length added <= 1)%nat
    /\ (forall e, In e added -> exists body, e = LoggerError body).
Proof.
  intros Hstatus. rewrite onResponse_run.
  apply Z.eqb_neq in Hstatus. rewrite Hstatus.
  eexists; eexists. split; [reflexivity |]. simpl trace.
  split; [reflexivity |].
  destruct (shouldLogResponse response); simpl.
  - split; [lia |]. intros e [<- | []]. now eexists.
  - split; [lia |]. intros e [].
Qed.

(** X15.  A content type counts as JSON as soon as it contains
    [application/json], whatever comes before or after it (a [charset]
    parameter, say): such a response is never logged, whatever its status
    and body. *)
Theorem json_with_parameters_not_logged (response : Response)
    (schemaPath : string) (w : World) (before after : string) :
  headers_get (headers response) "content-type"
  = Some (before ++ "application/json" ++ after)%string ->
  exists w',
    onResponse response schemaPath w = (Normal Js.Undefined, w')
    /\ loggerCalls (trace w') = loggerCalls (trace w).
Proof.
  intros Hct. rewrite onResponse_run.
  eexists. split; [reflexivity |]. simpl trace.
  rewrite loggerCalls_onResponse, shouldLogResponse_cases, Hct.
  assert (Hjson : Js.includes (before ++ "application/json" ++ after)
                    "application/json" = true)
    by (apply includes_app; now exists before, after).
  rewrite Hjson.
  destruct (isEmptyResponse response); apply app_nil_r.
Qed.

(** X16.  A response without a [content-type] header that is not empty is
    logged like one with a wrong content type, its [contentType] being
    [null]. *)
Theorem missing_content_type_is_logged (response : Response)
    (schemaPath : string) (w : World) (responseBody : string) :
  headers_get (headers response) "content-type" = None ->
  isEmptyResponse response = false ->
  text response = Normal responseBody ->
  exists w' record,
    onResponse response schemaPath w = (Normal Js.Undefined, w')
    /\ loggerCalls (trace w') = loggerCalls (trace w) ++ [record]
    /\ Js.obj_get "msg" record
       = Some (Js.Str "Unexpected response content type")
    /\ Js.obj_get "contentType" record = Some Js.Null
    /\ Js.obj_get "status" record = Some (Js.Number (status response))
    /\ Js.obj_get "responseBody" record
       = Some (Js.Str (Js.substring0 500 responseBody)).
Proof.
  intros Hct Hempty Hbody. rewrite onResponse_run.
  eexists; eexists. split; [reflexivity |]. simpl trace.
  rewrite loggerCalls_onResponse, shouldLogResponse_cases, Hct, Hempty.
  split; [reflexivity |].
  unfold loggedBody. rewrite Hbody, Hct.
  repeat split.
Qed.

End Facts.

(** *** The statements at concrete responses *)

Lemma set_cookie_keeps_last_witness :
  headers_values
    [ ("Set-Cookie", "a=1"); ("content-type", "text/html");
      ("set-cookie", "b=2") ] "set-cookie" = ["a=1"] ++ ["b=2"]
  /\ Js.obj_get "set-cookie"
       (collect_headers
          [ ("Set-Cookie", "a=1"); ("content-type", "text/html");
            ("set-cookie", "b=2") ])
     = Some (Js.Str "b=2").
Proof.
  split; [reflexivity |].
  apply (set_cookie_keeps_last
           [ ("Set-Cookie", "a=1"); ("content-type", "text/html");
             ("set-cookie", "b=2") ] ["a=1"] "b=2").
  reflexivity.
Defined.

Lemma onResponse_ignores_header_case_witness :
  @onResponse echoLogger unauthorized "/users/refresh" rendererProcess
  = @onResponse echoLogger
      (mkResponse 401 "Unauthorized" [ ("CONTENT-TYPE", "text/html") ]
         (Normal "<html>Unauthorized</html>"))
      "/users/refresh" rendererProcess.
Proof.
  apply (@onResponse_ignores_header_case echoLogger unauthorized
           (mkResponse 401 "Unauthorized" [ ("CONTENT-TYPE", "text/html") ]
              (Normal "<html>Unauthorized</html>"))
           "/users/refresh" rendererProcess);
    reflexivity.
Defined.

Lemma only_unauthorized_emits_logged_out_witness :
  status htmlErrorPage <> 401%Z
  /\ exists w' added,
       @onResponse echoLogger htmlErrorPage "/users/refresh" rendererProcess
       = (Normal Js.Undefined, w')
       /\ trace w' = trace rendererProcess ++ added
       /\ (length added <= 1)%nat
       /\ (forall e, In e added -> exists body, e = LoggerError body).
Proof.
  split; [discriminate |].
  apply (@only_unauthorized_emits_logged_out echoLogger htmlErrorPage
           "/users/refresh" rendererProcess).
  discriminate.
Defined.

Lemma json_with_parameters_not_logged_witness :
  exists w',
    @onResponse echoLogger
      (mkResponse 500 "Internal Server Error"
         [ ("Content-Type", "application/json; charset=utf-8") ]
         (Normal "{}"))
      "/users/refresh" mainProcess
    = (Normal Js.Undefined, w')
    /\ loggerCalls (trace w') = loggerCalls (trace mainProcess).
Proof.
  apply (@json_with_parameters_not_logged echoLogger
           (mkResponse 500 "Internal Server Error"
              [ ("Content-Type", "application/json; charset=utf-8") ]
              (Normal "{}"))
           "/users/refresh" mainProcess EmptyString "; charset=utf-8").
  reflexivity.
Defined.

Lemma missing_content_type_is_logged_witness :
  exists w' record,
    @onResponse echoLogger
      (mkResponse 502 "Bad Gateway" [ ("server", "proxy") ]
         (Normal "upstream unavailable"))
      "/files" mainProcess
    = (Normal Js.Undefined, w')
    /\ loggerCalls (trace w') = loggerCalls (trace mainProcess) ++ [record]
    /\ Js.obj_get "msg" record
       = Some (Js.Str "Unexpected response content type")
    /\ Js.obj_get "contentType" record = Some Js.Null
    /\ Js.obj_get "status" record = Some (Js.Number 502)
    /\ Js.obj_get "responseBody" record
       = Some (Js.Str (Js.substring0 500 "upstream unavailable")).
Proof.
  apply (@missing_content_type_is_logged echoLogger
           (mkResponse 502 "Bad Gateway" [ ("server", "proxy") ]
              (Normal "upstream unavailable"))
           "/files" mainProcess "upstream unavailable");
    reflexivity.
Defined.

End HttpClientMore.
